(** * A shallow embedding of [proxy.py]

    The caching forward proxy of [proxy.py] is modelled function by
    function.  Python values are represented as follows.

    - A [str] is a list of Unicode code points ([pystr]); [len] is the
      length of that list, and [str.encode()] (UTF-8) is [encode].
    - A [bytes] object is a list of [Byte.byte].
    - An exception is a constructor of [exn]; a call either returns or
      raises ([result]), and the stateful methods of [ProxyServer] run in
      the monad [M], which threads the object's attributes, the file
      system and the trace of socket events.
    - The functions of the Python standard library the program calls on
      URLs ([urlparse] and the properties of its result) are the fields
      of the class [Library].
    - The file system is a finite map from resolved paths to directories
      and files ([FS.fs]); the client and the origin are seen through the
      results of their socket calls. *)

From Stdlib Require Import String Ascii Decimal DecimalString.
From Stdlib.Strings Require Import Byte.
From Stdlib Require Import NArith ZArith Bool Lia List.
Import ListNotations.

Set Implicit Arguments.

(** ** Python strings *)

Module Str.

(** A Python [str]: the sequence of its code points. *)
Definition pystr := list N.

(** A string literal of the source (ASCII text). *)
Definition lit (s : string) : pystr :=
  map N_of_ascii (list_ascii_of_string s).

Arguments lit s%_string.

(** The two-character separator written ["\r\n"] in the source. *)
Definition CRLF : pystr := [13%N; 10%N].

Definition eqb (a b : pystr) : bool :=
  if list_eq_dec N.eq_dec a b then true else false.

(** [s.startswith(p)]. *)
Fixpoint starts_with (p s : pystr) : bool :=
  match p, s with
  | [], _ => true
  | _ :: _, [] => false
  | a :: p', b :: s' => N.eqb a b && starts_with p' s'
  end.

(** [p in s] on strings: [p] occurs in [s] as a substring. *)
Fixpoint contains (p s : pystr) : bool :=
  starts_with p s ||
  match s with
  | [] => false
  | _ :: s' => contains p s'
  end.

(** Puts a character in front of the first piece of a split. *)
Definition cons_head (c : N) (l : list pystr) : list pystr :=
  match l with
  | [] => [[c]]
  | x :: xs => (c :: x) :: xs
  end.

(** [s.split(sep)] for a non-empty [sep]: the text is cut at every
    occurrence of [sep], found from left to right without overlap.
    [skip] counts the characters of a separator still to be dropped. *)
Fixpoint split_go (sep : pystr) (skip : nat) (s : pystr) : list pystr :=
  match s with
  | [] => [[]]
  | c :: s' =>
      match skip with
      | S k => split_go sep k s'
      | O =>
          if starts_with sep s
          then [] :: split_go sep (length sep - 1) s'
          else cons_head c (split_go sep 0 s')
      end
  end.

Definition split (sep s : pystr) : list pystr := split_go sep 0 s.

(** The characters [str.strip()] removes: those for which
    [str.isspace()] holds. *)
Definition is_space (c : N) : bool :=
  ((9 <=? c) && (c <=? 13) || (28 <=? c) && (c <=? 32) ||
   (c =? 133) || (c =? 160) || (c =? 5760) ||
   (8192 <=? c) && (c <=? 8202) || (c =? 8232) || (c =? 8233) ||
   (c =? 8239) || (c =? 8287) || (c =? 12288))%N.

Fixpoint lstrip (s : pystr) : pystr :=
  match s with
  | [] => []
  | c :: s' => if is_space c then lstrip s' else s
  end.

Definition rstrip (s : pystr) : pystr := rev (lstrip (rev s)).

(** [s.strip()]. *)
Definition strip (s : pystr) : pystr := rstrip (lstrip s).

(** [str(n)] for a non-negative integer [n]. *)
Definition of_nat (n : nat) : pystr :=
  lit (NilEmpty.string_of_uint (Nat.to_uint n)).

(** [s.endswith(p)]. *)
Definition ends_with (p s : pystr) : bool := starts_with (rev p) (rev s).

(** [sep.join(l)]. *)
Fixpoint join (sep : pystr) (l : list pystr) : pystr :=
  match l with
  | [] => []
  | [x] => x
  | x :: l' => x ++ sep ++ join sep l'
  end.

(** [s[0:n]]. *)
Definition slice_to (n : nat) (s : pystr) : pystr := firstn n s.

(** The UTF-8 encoding of one code point; [None] for a surrogate or a
    value above U+10FFFF, which [str.encode()] refuses. *)
Definition byte_of (n : N) : byte :=
  match Byte.of_N n with
  | Some b => b
  | None => x00
  end.

Definition encode_char (c : N) : option (list byte) :=
  (if c <? 128 then Some [byte_of c]
   else if c <? 2048 then
     Some [byte_of (192 + c / 64); byte_of (128 + c mod 64)]
   else if (55296 <=? c) && (c <=? 57343) then None
   else if c <? 65536 then
     Some [byte_of (224 + c / 4096); byte_of (128 + (c / 64) mod 64);
           byte_of (128 + c mod 64)]
   else if c <? 1114112 then
     Some [byte_of (240 + c / 262144); byte_of (128 + (c / 4096) mod 64);
           byte_of (128 + (c / 64) mod 64); byte_of (128 + c mod 64)]
   else None)%N.

(** [s.encode()] and [s.encode("utf-8")]; [None] stands for
    [UnicodeEncodeError]. *)
Fixpoint encode (s : pystr) : option (list byte) :=
  match s with
  | [] => Some []
  | c :: s' =>
      match encode_char c, encode s' with
      | Some b, Some bs => Some (b ++ bs)
      | _, _ => None
      end
  end.

(** ASCII text: every character is encoded as one byte. *)
Definition is_ascii (s : pystr) : bool := forallb (fun c => c <? 128)%N s.

End Str.
Export Str.

(** ** Python lists *)

(** [l.index(x)]: the position of the first element equal to [x];
    [None] stands for [ValueError]. *)
Fixpoint index (x : pystr) (l : list pystr) : option nat :=
  match l with
  | [] => None
  | y :: l' => if Str.eqb y x then Some 0 else option_map S (index x l')
  end.

(** [l.insert(i, x)] for [0 <= i]: [x] is put before position [i], at
    the end when [i] is past it. *)
Definition insert (i : nat) (x : pystr) (l : list pystr) : list pystr :=
  firstn i l ++ x :: skipn i l.

(** [any(p in line for line in l)]. *)
Definition any_contains (p : pystr) (l : list pystr) : bool :=
  existsb (contains p) l.

(** [sum(len(x) for x in l)], the loop of lines 440-441. *)
Definition total_length (l : list pystr) : nat :=
  fold_left (fun acc x => acc + length x) l 0.

(** [l[i]]; [None] stands for [IndexError]. *)
Definition getitem (l : list pystr) (i : nat) : option pystr := nth_error l i.

(** [l[i] = x]; [None] stands for [IndexError]. *)
Fixpoint setitem (l : list pystr) (i : nat) (x : pystr)
  : option (list pystr) :=
  match l, i with
  | [], _ => None
  | _ :: l', O => Some (x :: l')
  | y :: l', S j => option_map (cons y) (setitem l' j x)
  end.

(** ** Exceptions *)

Inductive exn : Type :=
| TypeError
| AttributeError
| ValueError
| IndexError
| UnicodeEncodeError
| UnicodeDecodeError
| OSError                      (* [socket.error] and the file system's errors *)
| SystemExit (code : option Z) (* [sys.exit()] is [SystemExit None] *).

Inductive result (A : Type) : Type :=
| Ret (a : A)
| Raise (e : exn).

Arguments Ret {A} a.
Arguments Raise {A} e.

(** The exit status of the interpreter when the exception reaches the
    top level: [sys.exit()] and [sys.exit(0)] give 0, [sys.exit(n)]
    gives [n], any other uncaught exception gives 1. *)
Definition exit_status (e : exn) : Z :=
  match e with
  | SystemExit None => 0
  | SystemExit (Some n) => n
  | _ => 1
  end.

(** [except error]: [error] is [socket.error], an alias of [OSError]. *)
Definition is_socket_error (e : exn) : bool :=
  match e with
  | OSError => true
  | _ => false
  end.

(** The values compared on lines 272 and 280: a [str] and an [int]. *)
Inductive pyobj : Type :=
| PyStr (s : pystr)
| PyInt (n : Z).

(** [a == b]: values of different types are never equal. *)
Definition py_eq (a b : pyobj) : bool :=
  match a, b with
  | PyStr s, PyStr t => Str.eqb s t
  | PyInt m, PyInt n => Z.eqb m n
  | _, _ => false
  end.

(** ** The response transformer *)

Definition status_500 : pystr := lit "HTTP/1.1 500 Internal Server Error".

(** Lines 433-446: the Content-Length header is added when no header
    line contains the text.  The pair is [response_split] and
    [last_line_of_headers]. *)
Definition add_content_length (st : list pystr * nat) : list pystr * nat :=
  let '(response_split, last_line_of_headers) := st in
  if negb (any_contains (lit "Content-Length")
             (firstn last_line_of_headers response_split))
  then
    let content_length :=
      total_length (skipn (last_line_of_headers + 1) response_split) in
    (insert last_line_of_headers
       (lit "Content-Length: " ++ of_nat content_length) response_split,
     last_line_of_headers + 1)
  else st.

(** Lines 448-452. *)
Definition add_connection_close (st : list pystr * nat)
  : list pystr * nat :=
  let '(response_split, last_line_of_headers) := st in
  if negb (any_contains (lit "Connection: close")
             (firstn last_line_of_headers response_split))
  then
    (insert last_line_of_headers (lit "Connection: close") response_split,
     last_line_of_headers + 1)
  else st.

(** Lines 454-458. *)
Definition add_cache_hit (in_cache : bool) (st : list pystr * nat)
  : list pystr * nat :=
  let '(response_split, last_line_of_headers) := st in
  if in_cache
  then (insert last_line_of_headers (lit "Cache-Hit: 1") response_split,
        last_line_of_headers)
  else (insert last_line_of_headers (lit "Cache-Hit: 0") response_split,
        last_line_of_headers).

(** Lines 460-473 (and 392-401): every line up to and including
    position [last_line_of_headers] followed by CRLF, one more CRLF, then
    the remaining lines with nothing between them. *)
Definition reconstruct (st : list pystr * nat) : pystr :=
  let '(response_split, last_line_of_headers) := st in
  concat (map (fun line => line ++ CRLF)
            (firstn (last_line_of_headers + 1) response_split))
  ++ CRLF
  ++ concat (skipn (last_line_of_headers + 1) response_split).

Definition add_length_and_cache_to_header (response : pystr)
    (in_cache : bool) : result pystr :=
  let response_split := split CRLF response in
  match index [] response_split with
  | None => Raise ValueError
  | Some last_line_of_headers =>
      Ret (reconstruct
             (add_cache_hit in_cache
                (add_connection_close
                   (add_content_length
                      (response_split, last_line_of_headers)))))
  end.

(** The response of lines 377-380. *)
Definition response500_fixed : pystr :=
  status_500 ++ CRLF ++ lit "Content-Length: 0" ++ CRLF
  ++ lit "Connection: close" ++ CRLF ++ lit "Cache-Hit: 0" ++ CRLF ++ CRLF.

Definition create_500_response (response : option pystr) : result pystr :=
  match response with
  | None => Ret response500_fixed
  | Some response =>
      match setitem (split CRLF response) 0 status_500 with
      | None => Raise IndexError
      | Some response_split =>
          match index [] response_split with
          | None => Raise ValueError
          | Some last_line_of_headers =>
              add_length_and_cache_to_header
                (reconstruct (response_split, last_line_of_headers)) false
          end
      end
  end.

(** [get_status_code] returns the second space-separated field of the
    first line, as a string. *)
Definition get_status_code (response : pystr) : result pystr :=
  match getitem (split CRLF response) 0 with
  | None => Raise IndexError
  | Some line =>
      match getitem (split (lit " ") line) 1 with
      | None => Raise IndexError
      | Some status_code => Ret status_code
      end
  end.

(** ** The request validator *)

Definition check_request_validity (request : pystr) : bool :=
  let request_split := split CRLF request in
  if negb (length request_split =? 3) then false
  else if negb (Str.eqb (strip (nth 0 request_split [])) (lit "GET"))
  then false
  else if negb (Str.eqb (slice_to 5 (strip (nth 2 request_split [])))
                  (lit "HTTP/"))
  then false
  else if negb (Str.eqb (strip (nth 2 request_split [])) (lit "HTTP/1.1"))
          && negb (Str.eqb (strip (nth 2 request_split [])) (lit "HTTP/1.0"))
          && negb (Str.eqb (strip (nth 2 request_split [])) (lit "HTTP/0.9"))
  then false
  else if negb (contains (lit "http://") (strip (nth 1 request_split [])))
  then false
  else true.

(** ** Decoding received bytes *)

Definition is_cont (n : N) : bool := ((128 <=? n) && (n <=? 191))%N.

Definition is_surrogate (c : N) : bool := ((55296 <=? c) && (c <=? 57343))%N.

(** [b.decode("utf-8")]; [None] stands for [UnicodeDecodeError].
    Overlong forms, surrogates and values above U+10FFFF are refused. *)
Fixpoint decode (bs : list byte) : option pystr :=
  match bs with
  | [] => Some []
  | b0 :: r0 =>
      let n0 := Byte.to_N b0 in
      if (n0 <? 128)%N then option_map (cons n0) (decode r0)
      else
        match r0 with
        | [] => None
        | b1 :: r1 =>
            let n1 := Byte.to_N b1 in
            if negb (is_cont n1) then None
            else if ((194 <=? n0) && (n0 <=? 223))%N then
              option_map (cons ((n0 - 192) * 64 + (n1 - 128))%N) (decode r1)
            else
              match r1 with
              | [] => None
              | b2 :: r2 =>
                  let n2 := Byte.to_N b2 in
                  if negb (is_cont n2) then None
                  else if ((224 <=? n0) && (n0 <=? 239))%N then
                    let c := ((n0 - 224) * 4096 + (n1 - 128) * 64
                              + (n2 - 128))%N in
                    if (c <? 2048)%N || is_surrogate c then None
                    else option_map (cons c) (decode r2)
                  else
                    match r2 with
                    | [] => None
                    | b3 :: r3 =>
                        let n3 := Byte.to_N b3 in
                        if negb (is_cont n3) then None
                        else if ((240 <=? n0) && (n0 <=? 244))%N then
                          let c := ((n0 - 240) * 262144 + (n1 - 128) * 4096
                                    + (n2 - 128) * 64 + (n3 - 128))%N in
                          if (c <? 65536)%N || (1114112 <=? c)%N then None
                          else option_map (cons c) (decode r3)
                        else None
                    end
              end
        end
  end.

(** ** The file system under the working directory *)

Module FS.

Inductive node : Type :=
| Dir
| File (content : list byte).

(** A resolved path: the names from the working directory down. *)
Definition path := list pystr.

(** The most recent binding of a path comes first. *)
Definition fs := list (path * node).

Definition path_eqb (p q : path) : bool :=
  if list_eq_dec (list_eq_dec N.eq_dec) p q then true else false.

Fixpoint lookup (t : fs) (p : path) : option node :=
  match t with
  | [] => None
  | (q, n) :: t' => if path_eqb q p then Some n else lookup t' p
  end.

(** [p] is bound to [n], replacing what it was bound to. *)
Definition update (t : fs) (p : path) (n : node) : fs :=
  (p, n) :: filter (fun b => negb (path_eqb (fst b) p)) t.

(** The working directory itself always exists. *)
Definition stat (t : fs) (p : path) : option node :=
  match p with
  | [] => Some Dir
  | _ => lookup t p
  end.

(** Resolution of the components of a relative path: empty components
    and ["."] are dropped, [".."] goes one level up.  There are no
    symbolic links.  The resolution is that of the text alone: it is the
    file system's where every ["."] and [".."] comes after a directory that
    exists, as on the paths made of names. *)
Fixpoint walk (cur : path) (comps : list pystr) : path :=
  match comps with
  | [] => cur
  | c :: cs =>
      if Str.eqb c [] || Str.eqb c (lit ".") then walk cur cs
      else if Str.eqb c (lit "..") then walk (removelast cur) cs
      else walk (cur ++ [c]) cs
  end.

Definition resolve (p : pystr) : path := walk [] (split (lit "/") p).

Definition trailing_slash (p : pystr) : bool :=
  match rev p with
  | c :: _ => (c =? 47)%N
  | [] => false
  end.

(** [Path(p).is_dir()] and [Path(p).is_file()]. *)
Definition is_dir (t : fs) (p : pystr) : bool :=
  match stat t (resolve p) with
  | Some Dir => true
  | _ => false
  end.

Definition is_file (t : fs) (p : pystr) : bool :=
  match stat t (resolve p) with
  | Some (File _) => true
  | _ => false
  end.

(** [Path(p).mkdir(parents=True, exist_ok=True)]: every missing
    directory on the way is created; [None] (an [OSError]) when a name on
    the way is a file. *)
Fixpoint mkdir_from (t : fs) (done rest : path) : option fs :=
  match rest with
  | [] => Some t
  | c :: rest' =>
      let q := done ++ [c] in
      match stat t q with
      | Some Dir => mkdir_from t q rest'
      | Some (File _) => None
      | None => mkdir_from ((q, Dir) :: t) q rest'
      end
  end.

Definition mkdir (t : fs) (p : pystr) : option fs :=
  mkdir_from t [] (resolve p).

(** [open(p, "rb").read()]; [None] is an [OSError]. *)
Definition read (t : fs) (p : pystr) : option (list byte) :=
  if trailing_slash p then None
  else
    match stat t (resolve p) with
    | Some (File content) => Some content
    | _ => None
    end.

(** [open(p, "wb")]: the file is created or emptied; [None] is an
    [OSError] (the path is a directory, or its parent is not one). *)
Definition create (t : fs) (p : pystr) : option fs :=
  if trailing_slash p then None
  else
    let q := resolve p in
    match stat t q with
    | Some Dir => None
    | Some (File _) => Some (update t q (File []))
    | None =>
        match stat t (removelast q) with
        | Some Dir => Some (update t q (File []))
        | _ => None
        end
    end.

(** [file.write(data)] on the file opened at [p]. *)
Definition append (t : fs) (p : pystr) (data : list byte) : fs :=
  match stat t (resolve p) with
  | Some (File content) => update t (resolve p) (File (content ++ data))
  | _ => t
  end.

End FS.

(** ** The standard library's URL functions *)

(** The named tuple returned by [urlparse]. *)
Record ParseResult : Type := mkParseResult {
  scheme : pystr;
  netloc : pystr;
  path : pystr;
  params : pystr;
  query : pystr;
  fragment : pystr
}.

(** [url._replace(netloc=n)]. *)
Definition replace_netloc (url : ParseResult) (n : pystr) : ParseResult :=
  {| scheme := scheme url; netloc := n; path := path url;
     params := params url; query := query url; fragment := fragment url |}.

(** What the program imports from the standard library and does not
    define itself: [urlparse], the properties [hostname] and [port] of its
    result and the method [geturl], and the built-in [int] on strings.
    [port] raises [ValueError] on a port that is not a number in
    range, and is [None] when the URL has none. *)
Class Library : Type := {
  urlparse : pystr -> result ParseResult;
  hostname : ParseResult -> option pystr;
  port : ParseResult -> result (option Z);
  geturl : ParseResult -> pystr;
  int_of_str : pystr -> option Z
}.

(** ** State, events and the monad of the methods *)

(** The instance attributes of a [ProxyServer]; [None] is an attribute
    that has not been assigned, and reading it raises
    [AttributeError]. *)
Record ProxyServer : Type := mkProxyServer {
  port_num : option Z;
  request_method : option pystr;
  request_url_parsed : option ParseResult;
  request_version : option pystr;
  url_parsed : option ParseResult
}.

(** What the process does to the outside, in order. *)
Inductive event : Type :=
| ClientSend (data : list byte)
| ClientClose
| OriginConnect (host : pystr) (port : Z)
| OriginSend (data : list byte)
| CacheStat (p : pystr)
| CacheMkdir (p : pystr)
| CacheRead (p : pystr)
| CacheWrite (p : pystr).

Record world : Type := mkWorld {
  self : ProxyServer;
  files : FS.fs;
  trace : list event
}.

Definition M (A : Type) : Type := world -> world * result A.

Definition ret {A : Type} (a : A) : M A := fun w => (w, Ret a).

Definition raise {A : Type} (e : exn) : M A := fun w => (w, Raise e).

Definition bind {A B : Type} (m : M A) (k : A -> M B) : M B :=
  fun w =>
    match m w with
    | (w', Ret a) => k a w'
    | (w', Raise e) => (w', Raise e)
    end.

Notation "x <- m ;; k" := (bind m (fun x => k))
  (at level 61, m at next level, right associativity).
Notation "m ;;; k" := (bind m (fun _ => k))
  (at level 61, right associativity).

(** [try: m  except: h] with a bare [except], which catches every
    exception. *)
Definition try_except {A : Type} (m : M A) (h : M A) : M A :=
  fun w =>
    match m w with
    | (w', Ret a) => (w', Ret a)
    | (w', Raise _) => h w'
    end.

Definition lift {A : Type} (r : result A) : M A := fun w => (w, r).

(** An optional value whose absence raises [e]. *)
Definition expect {A : Type} (e : exn) (o : option A) : M A :=
  match o with
  | Some a => ret a
  | None => raise e
  end.

Definition emit (e : event) : M unit :=
  fun w => ({| self := self w; files := files w; trace := trace w ++ [e] |},
            Ret tt).

Definition get_files : M FS.fs := fun w => (w, Ret (files w)).

Definition set_files (t : FS.fs) : M unit :=
  fun w => ({| self := self w; files := t; trace := trace w |}, Ret tt).

(** [self.a] for an attribute [a]. *)
Definition attr {A : Type} (a : ProxyServer -> option A) : M A :=
  fun w => expect AttributeError (a (self w)) w.

Definition set_self (f : ProxyServer -> ProxyServer) : M unit :=
  fun w => ({| self := f (self w); files := files w; trace := trace w |},
            Ret tt).

Definition set_request_method (v : pystr) : M unit :=
  set_self (fun o =>
    {| port_num := port_num o; request_method := Some v;
       request_url_parsed := request_url_parsed o;
       request_version := request_version o; url_parsed := url_parsed o |}).

Definition set_request_url_parsed (v : ParseResult) : M unit :=
  set_self (fun o =>
    {| port_num := port_num o; request_method := request_method o;
       request_url_parsed := Some v;
       request_version := request_version o; url_parsed := url_parsed o |}).

Definition set_request_version (v : pystr) : M unit :=
  set_self (fun o =>
    {| port_num := port_num o; request_method := request_method o;
       request_url_parsed := request_url_parsed o;
       request_version := Some v; url_parsed := url_parsed o |}).

Definition set_url_parsed (v : ParseResult) : M unit :=
  set_self (fun o =>
    {| port_num := port_num o; request_method := request_method o;
       request_url_parsed := request_url_parsed o;
       request_version := request_version o; url_parsed := Some v |}).

(** [sys.exit()] and [sys.exit(n)]. *)
Definition sys_exit {A : Type} (code : option Z) : M A :=
  raise (SystemExit code).

(** The right operand of a [+] whose left operand is a [str]. *)
Inductive operand : Type :=
| OStr (s : pystr)
| OBytes (b : list byte)
| ONone.

(** [a + b] for a string [a]: only another string can be added. *)
Definition str_add (a : pystr) (b : operand) : result pystr :=
  match b with
  | OStr s => Ret (a ++ s)
  | _ => Raise TypeError
  end.

Definition operand_of (o : option pystr) : operand :=
  match o with
  | Some s => OStr s
  | None => ONone
  end.

(** [client_socket.send(response.encode())]; the client's socket takes
    what it is given. *)
Definition send_client (response : pystr) : M unit :=
  b <- expect UnicodeEncodeError (encode response) ;;
  emit (ClientSend b).

(** File-system calls, recorded in the trace. *)
Definition path_is_file (p : pystr) : M bool :=
  emit (CacheStat p) ;;;
  t <- get_files ;;
  ret (FS.is_file t p).

Definition path_is_dir (p : pystr) : M bool :=
  emit (CacheStat p) ;;;
  t <- get_files ;;
  ret (FS.is_dir t p).

Definition path_mkdir (p : pystr) : M unit :=
  emit (CacheMkdir p) ;;;
  t <- get_files ;;
  t' <- expect OSError (FS.mkdir t p) ;;
  set_files t'.

Definition open_rb_read (p : pystr) : M (list byte) :=
  emit (CacheRead p) ;;;
  t <- get_files ;;
  expect OSError (FS.read t p).

Definition open_wb (p : pystr) : M unit :=
  emit (CacheWrite p) ;;;
  t <- get_files ;;
  t' <- expect OSError (FS.create t p) ;;
  set_files t'.

Definition file_write (p : pystr) (data : list byte) : M unit :=
  t <- get_files ;;
  set_files (FS.append t p data).

(** ** The outside of one connection *)

(** The origin server as the proxy meets it: whether a socket can be
    created, whether [connect] and [sendall] succeed, and the successive
    results of [recv(4096)] ([None] is a failure; once the list is used
    up the peer has closed and [recv] returns [b'']). *)
Record origin_server : Type := mkOrigin {
  socket_created : bool;
  accepts_connection : bool;
  accepts_request : bool;
  reply : list (option (list byte))
}.

(** The loop of lines 556-567. *)
Fixpoint recv_all (chunks : list (option (list byte)))
    (response : list byte) : option (list byte) :=
  match chunks with
  | [] => Some response
  | None :: _ => None
  | Some [] :: _ => Some response
  | Some data :: rest => recv_all rest (response ++ data)
  end.

(** ** The methods of [ProxyServer] *)

Section Methods.

Context {lib : Library}.

(** [__init__]: the cache directory is created when it is missing. *)
Definition init (port : Z) : M unit :=
  set_self (fun _ =>
    {| port_num := Some port; request_method := None;
       request_url_parsed := None; request_version := None;
       url_parsed := None |}) ;;;
  d <- path_is_dir (lit "./cache") ;;
  if negb d
  then emit (CacheMkdir (lit "./cache")) ;;;
       t <- get_files ;;
       match FS.stat t (FS.resolve (lit "./cache")) with
       | None => set_files ((FS.resolve (lit "./cache"), FS.Dir) :: t)
       | Some _ => raise OSError
       end
  else ret tt.

Definition create_socket (origin : origin_server) : M unit :=
  if socket_created origin then ret tt else sys_exit (Some 1%Z).

Definition parse_request (request : pystr) : M unit :=
  let request_split := split (lit " ") request in
  m <- expect IndexError (getitem request_split 0) ;;
  set_request_method (strip m) ;;;
  u <- expect IndexError (getitem request_split 1) ;;
  let request_url := strip u in
  v <- expect IndexError (getitem request_split 2) ;;
  set_request_version (strip v) ;;;
  parsed <- lift (urlparse request_url) ;;
  set_request_url_parsed parsed ;;;
  url <- attr request_url_parsed ;;
  p <- lift (port url) ;;
  match p with
  | None =>
      url <- attr request_url_parsed ;;
      set_request_url_parsed
        (replace_netloc url (netloc url ++ lit ":80")) ;;;
      old <- attr url_parsed ;;
      reparsed <- lift (urlparse (geturl old)) ;;
      set_url_parsed reparsed
  | Some _ => ret tt
  end.

(** The path computed on lines 485, 506 and 602. *)
Definition cache_path : M pystr :=
  url <- attr request_url_parsed ;;
  with_host <- lift (str_add (lit "./cache/") (operand_of (hostname url))) ;;
  ret (with_host ++ path url).

Definition check_file_in_cache : M bool :=
  p <- cache_path ;;
  path_is_file p.

Definition get_response_from_cache : M pystr :=
  p <- cache_path ;;
  try_except
    (data <- open_rb_read p ;;
     expect UnicodeDecodeError (decode data))
    (sys_exit None).

(** The loop of lines 609-616 over the first [len(path_split) - 1]
    pieces; it returns [path_to_file]. *)
Fixpoint make_directories (pieces : list pystr) (path_to_file : pystr)
  : M pystr :=
  match pieces with
  | [] => ret path_to_file
  | piece :: rest =>
      let path_to_file := path_to_file ++ piece in
      d <- path_is_dir path_to_file ;;
      (if negb d then path_mkdir path_to_file else ret tt) ;;;
      make_directories rest (path_to_file ++ lit "/")
  end.

(** The loop of lines 627-628. *)
Fixpoint write_lines (p : pystr) (lines : list pystr) : M unit :=
  match lines with
  | [] => ret tt
  | line :: rest =>
      data <- expect UnicodeEncodeError (encode line) ;;
      file_write p data ;;;
      write_lines p rest
  end.

Definition store_response_in_cache (response : pystr) : M unit :=
  p <- cache_path ;;
  let path_split := split (lit "/") p in
  dir <- make_directories (removelast path_split) (lit "./cache/") ;;
  let path_to_file := dir ++ last path_split [] in
  let response_split := split CRLF response in
  last_line_of_headers <- expect ValueError (index [] response_split) ;;
  try_except
    (open_wb path_to_file ;;;
     write_lines path_to_file
       (skipn (last_line_of_headers + 1) response_split))
    (sys_exit None).

Definition send_request_to_server (origin : origin_server)
  : M (option pystr) :=
  create_socket origin ;;;
  connected <-
    try_except
      (url <- attr request_url_parsed ;;
       p <- lift (port url) ;;
       h <- expect TypeError (hostname url) ;;
       n <- expect TypeError p ;;
       emit (OriginConnect h n) ;;;
       if accepts_connection origin then ret true else raise OSError)
      (ret false) ;;
  if negb connected then ret None
  else
    m <- attr request_method ;;
    let request := m ++ lit " " in
    u <- attr url_parsed ;;
    request <- (if negb (Str.eqb (path u) [])
                then u <- attr url_parsed ;; ret (request ++ path u)
                else ret (request ++ lit "/")) ;;
    v <- attr request_version ;;
    let request := request ++ (lit " " ++ v) ++ CRLF in
    url <- attr request_url_parsed ;;
    host_line <- lift (str_add (lit "Host: ") (operand_of (hostname url))) ;;
    let request := request ++ host_line ++ CRLF in
    let request := request ++ lit "Connection: close" ++ CRLF ++ CRLF in
    sent <-
      try_except
        (data <- expect UnicodeEncodeError (encode request) ;;
         emit (OriginSend data) ;;;
         if accepts_request origin then ret true else raise OSError)
        (ret false) ;;
    if negb sent then ret None
    else
      match recv_all (reply origin) [] with
      | None => ret None
      | Some response =>
          text <- expect UnicodeDecodeError (decode response) ;;
          ret (Some text)
      end.

(** Lines 270-292: what is done with a response the origin gave. *)
Definition forward_response (response_from_server : pystr) : M unit :=
  status_code <- lift (get_status_code response_from_server) ;;
  if py_eq (PyStr status_code) (PyInt 200) then
    store_response_in_cache response_from_server ;;;
    response <- lift (add_length_and_cache_to_header
                        response_from_server false) ;;
    send_client response
  else if py_eq (PyStr status_code) (PyInt 404) then
    response <- lift (add_length_and_cache_to_header
                        response_from_server false) ;;
    send_client response
  else
    response <- lift (create_500_response (Some response_from_server)) ;;
    send_client response.

(** Lines 248-254: the request is answered from the cache. *)
Definition serve_from_cache : M unit :=
  cached_response <- get_response_from_cache ;;
  mod_response <- lift (add_length_and_cache_to_header
                          cached_response true) ;;
  send_client mod_response.

(** Lines 238-296: the handler once the request has been received and
    printed. *)
Definition answer_request (origin : origin_server) (request : pystr)
  : M unit :=
  if negb (check_request_validity request) then
    response_500 <- lift (create_500_response None) ;;
    send_client response_500 ;;;
    emit ClientClose
  else
    parse_request request ;;;
    in_cache <- check_file_in_cache ;;
    if in_cache then
      serve_from_cache ;;;
      emit ClientClose
    else
      response_from_server <- send_request_to_server origin ;;
      match response_from_server with
      | None =>
          response <- lift (create_500_response None) ;;
          send_client response ;;;
          emit ClientClose
      | Some response_from_server =>
          forward_response response_from_server ;;;
          emit ClientClose
      end.

(** [handle_request]: [received] is the result of
    [client_socket.recv(1024)], [None] when it raises [socket.error].
    Line 236 adds a [bytes] object to a string before anything is
    answered. *)
Definition handle_request (received : option (list byte))
    (origin : origin_server) : M unit :=
  match received with
  | None => emit ClientClose
  | Some data =>
      request <- expect UnicodeDecodeError (decode data) ;;
      encoded <- expect UnicodeEncodeError (encode request) ;;
      lift (str_add (lit "Request received from client:" ++ [10%N])
              (OBytes encoded)) ;;;
      answer_request origin request
  end.

(** One turn of the loop of [accept_connection], for a connection that
    was accepted: only [socket.error] is caught. *)
Definition accept_connection_once (received : option (list byte))
    (origin : origin_server) : M unit :=
  fun w =>
    match handle_request received origin w with
    | (w', Raise e) =>
        if is_socket_error e then (w', Ret tt) else (w', Raise e)
    | r => r
    end.

(** [get_port_num]: [argv] is [sys.argv]. *)
Definition get_port_num (argv : list pystr) : result Z :=
  if length argv <? 2 then Raise (SystemExit None)
  else
    match getitem argv 1 with
    | None => Raise IndexError
    | Some a =>
        match int_of_str a with
        | Some n => Ret n
        | None => Raise ValueError
        end
    end.

End Methods.

(** ** A model of the library for plain URLs

    The general results below hold for every [Library].  The closed
    examples run the methods on [plain_urls], which follows
    [urllib.parse] on URLs of the shape [scheme://host[:port][/path]]
    [[?query][#fragment]] with no user information, no bracketed host and
    no [;parameters], and [int] on decimal numerals. *)

Module UrlModel.

(** [s] up to the first character satisfying [stop], and the rest. *)
Fixpoint break (stop : N -> bool) (s : pystr) : pystr * pystr :=
  match s with
  | [] => ([], [])
  | c :: s' =>
      if stop c then ([], s)
      else let '(a, b) := break stop s' in (c :: a, b)
  end.

Definition is_digit (c : N) : bool := ((48 <=? c) && (c <=? 57))%N.

Definition is_letter (c : N) : bool :=
  ((65 <=? c) && (c <=? 90) || (97 <=? c) && (c <=? 122))%N.

Definition lower_char (c : N) : N :=
  if ((65 <=? c) && (c <=? 90))%N then (c + 32)%N else c.

Definition lower (s : pystr) : pystr := map lower_char s.

Definition scheme_char (c : N) : bool :=
  is_letter c || is_digit c || (c =? 43)%N || (c =? 45)%N || (c =? 46)%N.

Definition cut_scheme (url : pystr) : pystr * pystr :=
  let '(before, rest) := break (fun c => (c =? 58)%N) url in
  match before, rest with
  | c :: _, _ :: after =>
      if is_letter c && forallb scheme_char before
      then (lower before, after)
      else ([], url)
  | _, _ => ([], url)
  end.

Definition urlparse (url : pystr) : result ParseResult :=
  let '(sch, rest) := cut_scheme url in
  let '(loc, rest) :=
    if starts_with (lit "//") rest
    then break (fun c => (c =? 47)%N || (c =? 63)%N || (c =? 35)%N)
           (skipn 2 rest)
    else ([], rest) in
  let '(pth, rest) := break (fun c => (c =? 63)%N || (c =? 35)%N) rest in
  let '(qry, rest) :=
    if starts_with (lit "?") rest
    then break (fun c => (c =? 35)%N) (skipn 1 rest)
    else ([], rest) in
  Ret {| scheme := sch; netloc := loc; path := pth; params := [];
         query := qry; fragment := skipn 1 rest |}.

Definition hostinfo (url : ParseResult) : pystr * pystr :=
  let '(host, rest) := break (fun c => (c =? 58)%N) (netloc url) in
  (host, skipn 1 rest).

Definition hostname (url : ParseResult) : option pystr :=
  match fst (hostinfo url) with
  | [] => None
  | host => Some (lower host)
  end.

Definition digits_value (s : pystr) : Z :=
  fold_left (fun acc c => (10 * acc + (Z.of_N c - 48))%Z) s 0%Z.

Definition port (url : ParseResult) : result (option Z) :=
  match snd (hostinfo url) with
  | [] => Ret None
  | digits =>
      if forallb is_digit digits then
        if (digits_value digits <=? 65535)%Z
        then Ret (Some (digits_value digits))
        else Raise ValueError
      else Raise ValueError
  end.

Definition geturl (url : ParseResult) : pystr :=
  (match scheme url with [] => [] | s => s ++ lit ":" end)
  ++ (match netloc url with [] => [] | n => lit "//" ++ n end)
  ++ path url
  ++ (match query url with [] => [] | q => lit "?" ++ q end)
  ++ (match fragment url with [] => [] | f => lit "#" ++ f end).

Definition int_of_str (s : pystr) : option Z :=
  match strip s with
  | [] => None
  | digits =>
      if forallb is_digit digits then Some (digits_value digits) else None
  end.

End UrlModel.

Definition plain_urls : Library :=
  {| urlparse := UrlModel.urlparse;
     hostname := UrlModel.hostname;
     port := UrlModel.port;
     geturl := UrlModel.geturl;
     int_of_str := UrlModel.int_of_str |}.

(** A fresh [ProxyServer] in a directory that holds an empty [cache]
    directory. *)
Definition fresh_server : ProxyServer :=
  {| port_num := Some 8080%Z; request_method := None;
     request_url_parsed := None; request_version := None;
     url_parsed := None |}.

Definition cache_only : FS.fs := [([lit "cache"], FS.Dir)].

Definition start : world :=
  {| self := fresh_server; files := cache_only; trace := [] |}.

(** ** Vocabulary of the statements *)

(** A response as text: each header line followed by CRLF, an empty
    line, the body. *)
Definition render (headers : list pystr) (body : pystr) : pystr :=
  concat (map (fun line => line ++ CRLF) headers) ++ CRLF ++ body.

Definition cache_hit_line (in_cache : bool) : pystr :=
  if in_cache then lit "Cache-Hit: 1" else lit "Cache-Hit: 0".

(** The Content-Length line the transformer adds to [headers], if any,
    for the body lines [body_lines]. *)
Definition content_length_lines (headers body_lines : list pystr)
  : list pystr :=
  if any_contains (lit "Content-Length") headers then []
  else [lit "Content-Length: " ++ of_nat (total_length body_lines)].

(** The Connection line the transformer adds to [headers], if any. *)
Definition connection_lines (headers : list pystr) : list pystr :=
  if any_contains (lit "Connection: close") headers then []
  else [lit "Connection: close"].

(** The header lines of a response, those before its first empty line,
    and the lines after that empty line. *)
Definition header_lines (response : pystr) (k : nat) : list pystr :=
  firstn k (split CRLF response).

Definition body_lines (response : pystr) (k : nat) : list pystr :=
  skipn (k + 1) (split CRLF response).


(** A text with no empty line when split at CRLF: it is not empty, it
    neither starts nor ends with CRLF, and has no two CRLF in a row. *)
Definition lacks_blank_line (s : pystr) : bool :=
  negb (Str.eqb s []) && negb (starts_with CRLF s)
  && negb (ends_with CRLF s) && negb (contains (CRLF ++ CRLF) s).

(** ** Inputs of the closed examples *)

(** The bytes of a text of the examples. *)
Definition utf8 (s : pystr) : list byte :=
  match encode s with
  | Some b => b
  | None => []
  end.

(** A request the validator accepts, with a port in its URL. *)
Definition request_with_port : pystr :=
  lit "GET" ++ CRLF ++ lit " http://example.com:8080/a.txt " ++ CRLF
  ++ lit "HTTP/1.0".

(** A request the validator accepts, with no port in its URL. *)
Definition request_without_port : pystr :=
  lit "GET" ++ CRLF ++ lit " http://example.com/a.txt " ++ CRLF
  ++ lit "HTTP/1.0".

(** The request of an HTTP/1.0 client: a request line and an empty
    line. *)
Definition request_line_get : pystr :=
  lit "GET http://example.com/a.txt HTTP/1.0" ++ CRLF ++ CRLF.

Definition request_line_post : pystr :=
  lit "POST http://example.com/a.txt HTTP/1.0" ++ CRLF ++ CRLF.

(** Three lines, with a well-formed request line first and the version
    again on the third. *)
Definition request_three_lines : pystr :=
  lit "GET http://example.com/a.txt HTTP/1.0" ++ CRLF
  ++ lit "Host: example.com" ++ CRLF ++ lit "HTTP/1.0".

(** Method, URL and version on a line each. *)
Definition request_one_per_line : pystr :=
  lit "GET" ++ CRLF ++ lit "http://example.com/a.txt" ++ CRLF
  ++ lit "HTTP/1.0".

Definition response_200_hello : pystr :=
  lit "HTTP/1.0 200 OK" ++ CRLF ++ CRLF ++ lit "hello".

(** A response whose body is the one character U+00E9. *)
Definition response_200_e_acute : pystr :=
  lit "HTTP/1.0 200 OK" ++ CRLF ++ CRLF ++ [233%N].

(** A response with two body lines. *)
Definition response_200_two_lines : pystr :=
  lit "HTTP/1.0 200 OK" ++ CRLF ++ CRLF ++ lit "he" ++ CRLF ++ lit "llo".

(** An origin that accepts the connection and closes without a reply,
    and one that refuses the connection. *)
Definition origin_up : origin_server :=
  {| socket_created := true; accepts_connection := true;
     accepts_request := true; reply := [] |}.

Definition origin_down : origin_server :=
  {| socket_created := true; accepts_connection := false;
     accepts_request := true; reply := [] |}.

(** The world after one more event. *)
Definition after (w : world) (events : list event) : world :=
  {| self := self w; files := files w; trace := trace w ++ events |}.

(** Whether an event reaches the client, the cache or the origin. *)
Definition is_client_send (e : event) : bool :=
  match e with
  | ClientSend _ => true
  | _ => false
  end.

(** The URL of [request_with_port], parsed. *)
Definition url_with_port : ParseResult :=
  {| scheme := lit "http"; netloc := lit "example.com:8080";
     path := lit "/a.txt"; params := []; query := []; fragment := [] |}.

(** The world once [request_with_port] has been parsed by a fresh
    server. *)
Definition parsed_with_port : world :=
  fst (parse_request (lib := plain_urls) request_with_port start).

(** The same with a cache entry where the request is looked up, holding
    [content]. *)
Definition with_entry (content : list byte) : world :=
  {| self := self parsed_with_port;
     files := [([lit "cache"; lit "example.com"; lit "a.txt"],
                FS.File content);
               ([lit "cache"; lit "example.com"], FS.Dir);
               ([lit "cache"], FS.Dir)];
     trace := [] |}.

(** The same with a directory where [store_response_in_cache] writes the
    entry. *)
Definition with_directory_in_the_way : world :=
  {| self := self parsed_with_port;
     files := [([lit "cache"; lit "cache"; lit "example.com"; lit "a.txt"],
                FS.Dir);
               ([lit "cache"; lit "cache"; lit "example.com"], FS.Dir);
               ([lit "cache"; lit "cache"], FS.Dir);
               ([lit "cache"], FS.Dir)];
     trace := [] |}.

(** The request is parsed and found in the cache. *)
Definition key_cached {lib : Library} (request : pystr) (w : world) : bool :=
  match parse_request request w with
  | (w1, Ret _) =>
      match check_file_in_cache w1 with
      | (_, Ret true) => true
      | _ => false
      end
  | _ => false
  end.

(** Nothing among [events] is sent to the client. *)
Definition no_client_send (events : list event) : bool :=
  forallb (fun e => negb (is_client_send e)) events.

(** The world once a request with the fields [m] and [v] and the URL
    [url] has been parsed. *)
Definition parsed (w : world) (m v : pystr) (url : ParseResult) : world :=
  {| self := {| port_num := port_num (self w);
                request_method := Some (strip m);
                request_url_parsed := Some url;
                request_version := Some (strip v);
                url_parsed := url_parsed (self w) |};
     files := files w;
     trace := trace w |}.

(** [url_parsed] has not been assigned, and a method leaves it so. *)
Definition unassigned (w : world) : Prop := url_parsed (self w) = None.

Definition keeps_unassigned {A : Type} (m : M A) : Prop :=
  forall w, unassigned w -> unassigned (fst (m w)).

(** ** The listener *)

(** [bind_socket]: [bind p] is what [socket.bind(("", p))] does on port
    [p].  The loop of lines 155-162 tries the next port after each
    [socket.error]; [fuel] bounds the number of attempts, [None] meaning
    that it ran out.  The result is the port the socket is bound to. *)
Fixpoint bind_socket (bind : Z -> result unit) (fuel : nat) (port_num : Z)
  : option (result Z) :=
  match fuel with
  | O => None
  | S fuel' =>
      match bind port_num with
      | Ret _ => Some (Ret port_num)
      | Raise e =>
          if is_socket_error e
          then bind_socket bind fuel' (port_num + 1)
          else Some (Raise e)
      end
  end.

(** [listen_for_connections]: [listening] tells whether
    [socket.listen(5)] succeeds. *)
Definition listen_for_connections (listening : bool) : M unit :=
  if listening then ret tt else sys_exit (Some 1%Z).

(** What [socket.accept()] gives, turn after turn of the loop of
    [accept_connection]: a [socket.error], or a client with the result of
    its [recv] and the origin its request leads to. *)
Inductive incoming : Type :=
| AcceptError
| Accepted (received : option (list byte)) (origin : origin_server).

(** [accept_connection] on the connections that arrive: the loop goes on
    until an exception other than [socket.error] leaves it. *)
Fixpoint accept_connection {lib : Library} (arrivals : list incoming)
  : M unit :=
  match arrivals with
  | [] => ret tt
  | AcceptError :: rest => accept_connection rest
  | Accepted received origin :: rest =>
      accept_connection_once received origin ;;;
      accept_connection rest
  end.

(** ** More vocabulary *)

(** A header line as [split] gives them: not empty, with no CRLF. *)
Definition header_line (l : pystr) : bool :=
  negb (Str.eqb l []) && negb (contains CRLF l).

(** A text with no occurrence of the character [c]. *)
Definition lacks_char (c : N) (s : pystr) : bool :=
  forallb (fun x => negb (x =? c)%N) s.

(** The connections so far closed without an answer: each failed
    [recv] closes its client. *)
Fixpoint closed_unanswered (arrivals : list incoming) : list event :=
  match arrivals with
  | [] => []
  | Accepted None _ :: rest => ClientClose :: closed_unanswered rest
  | _ :: rest => closed_unanswered rest
  end.

(** No client among [arrivals] has sent anything. *)
Definition silent (a : incoming) : bool :=
  match a with
  | Accepted (Some _) _ => false
  | _ => true
  end.

(** A method that leaves the files as they are. *)
Definition keeps_files {A : Type} (m : M A) : Prop :=
  forall w, files (fst (m w)) = files w.

(** A method all of whose new events satisfy [allowed]. *)
Definition only_events {A : Type} (allowed : event -> bool) (m : M A)
  : Prop :=
  forall w, exists events,
    trace (fst (m w)) = trace w ++ events
    /\ forallb allowed events = true.

Definition is_cache_write (e : event) : bool :=
  match e with
  | CacheWrite _ => true
  | _ => false
  end.

Definition is_origin_send (e : event) : bool :=
  match e with
  | OriginSend _ => true
  | _ => false
  end.

(** The request line and headers of lines 539-547, for the method [m],
    the path [p] of the URL, the version [v] and the host [h]. *)
Definition outbound_request (m p v h : pystr) : pystr :=
  m ++ lit " " ++ (if Str.eqb p [] then lit "/" else p) ++ lit " " ++ v
  ++ CRLF ++ lit "Host: " ++ h ++ CRLF ++ lit "Connection: close"
  ++ CRLF ++ CRLF.

(** A world in which every attribute of the request is assigned,
    [url_parsed] too. *)
Definition all_assigned : world :=
  {| self := {| port_num := Some 8080%Z;
                request_method := Some (lit "GET");
                request_url_parsed := Some url_with_port;
                request_version := Some (lit "HTTP/1.0");
                url_parsed := Some url_with_port |};
     files := cache_only;
     trace := [] |}.

(** An origin that answers in two pieces and closes. *)
Definition origin_answering : origin_server :=
  {| socket_created := true; accepts_connection := true;
     accepts_request := true;
     reply := [Some (utf8 (lit "HTTP/1.0 200 OK" ++ CRLF ++ CRLF));
               Some (utf8 (lit "hello"))] |}.

(** The content of the file at a resolved path, if it is a file. *)
Definition file_at (t : FS.fs) (q : FS.path) : option (list byte) :=
  match FS.stat t q with
  | Some (FS.File content) => Some content
  | _ => None
  end.

(** No component of the path is [".."]. *)
Definition no_parent_step (p : pystr) : bool :=
  negb (existsb (fun c => Str.eqb c (lit "..")) (split (lit "/") p)).

(** Every component of the path is a name or empty, none is ["."] or
    [".."]: the file system then finds the file where [FS.resolve] puts
    it, with nothing to check on the way but the directories above it. *)
Definition plain_path (p : pystr) : bool :=
  forallb (fun c => negb (Str.eqb c (lit ".") || Str.eqb c (lit "..")))
    (split (lit "/") p).

(** A [bind] that finds the ports below [free] taken. *)
Definition taken_below (free : Z) (p : Z) : result unit :=
  if (p <? free)%Z then Raise OSError else Ret tt.

(** A request the validator accepts, whose URL has a port and no
    host. *)
Definition request_without_host : pystr :=
  lit "GET" ++ CRLF ++ lit " http://:8080/a.txt " ++ CRLF ++ lit "HTTP/1.0".

Definition url_without_host : ParseResult :=
  {| scheme := lit "http"; netloc := lit ":8080";
     path := lit "/a.txt"; params := []; query := []; fragment := [] |}.

(** * Properties *)

Unset Implicit Arguments.

(** ** Strings and lists *)

Section StringFacts.

Lemma eqb_eq (a b : pystr) : Str.eqb a b = true <-> a = b.
Proof.
  unfold Str.eqb. destruct (list_eq_dec N.eq_dec a b); split; congruence.
Qed.

Lemma eqb_neq (a b : pystr) : Str.eqb a b = false <-> a <> b.
Proof.
  unfold Str.eqb. destruct (list_eq_dec N.eq_dec a b); split; congruence.
Qed.

Lemma eqb_refl (a : pystr) : Str.eqb a a = true.
Proof. now apply eqb_eq. Qed.

Lemma starts_with_app (p s : pystr) : starts_with p (p ++ s) = true.
Proof.
  induction p as [|a p IH]; simpl; [reflexivity|].
  now rewrite N.eqb_refl, IH.
Qed.

Lemma starts_with_refl (p : pystr) : starts_with p p = true.
Proof. rewrite <- (app_nil_r p) at 2. apply starts_with_app. Qed.

Lemma starts_with_inv (p s : pystr) :
  starts_with p s = true -> exists r, s = p ++ r.
Proof.
  revert s. induction p as [|a p IH]; intros s H.
  - now exists s.
  - destruct s as [|b s]; simpl in H; [discriminate|].
    apply andb_true_iff in H. destruct H as [Hab Hps].
    apply N.eqb_eq in Hab. subst b.
    destruct (IH _ Hps) as [r ->]. now exists r.
Qed.

Lemma contains_starts (p s : pystr) :
  starts_with p s = true -> contains p s = true.
Proof. intros H. destruct s; simpl; now rewrite H. Qed.

Lemma contains_app (p a b : pystr) : contains p (a ++ p ++ b) = true.
Proof.
  induction a as [|c a IH].
  - rewrite app_nil_l. apply contains_starts, starts_with_app.
  - simpl. rewrite IH. apply orb_true_r.
Qed.

Lemma contains_refl (p : pystr) : contains p p = true.
Proof. apply contains_starts, starts_with_refl. Qed.

Lemma contains_cons (p : pystr) (c : N) (s : pystr) :
  contains p (c :: s) = starts_with p (c :: s) || contains p s.
Proof. reflexivity. Qed.

Lemma ends_with_app (p s : pystr) : ends_with p (s ++ p) = true.
Proof. unfold ends_with. rewrite rev_app_distr. apply starts_with_app. Qed.

(** How [split] proceeds on the separator CRLF. *)
Lemma split_crlf_nil : split CRLF [] = [[]].
Proof. reflexivity. Qed.

Lemma split_crlf_sep (r : pystr) :
  split CRLF (13%N :: 10%N :: r) = [] :: split CRLF r.
Proof. reflexivity. Qed.

Lemma split_crlf_char (c : N) (r : pystr) :
  starts_with CRLF (c :: r) = false ->
  split CRLF (c :: r) = cons_head c (split CRLF r).
Proof.
  intros H. unfold split.
  change (split_go CRLF 0 (c :: r))
    with (if starts_with CRLF (c :: r)
          then [] :: split_go CRLF (length CRLF - 1) r
          else cons_head c (split_go CRLF 0 r)).
  now rewrite H.
Qed.

Lemma starts_with_crlf_inv (s : pystr) :
  starts_with CRLF s = true -> exists r, s = 13%N :: 10%N :: r.
Proof. intros H. destruct (starts_with_inv _ _ H) as [r ->]. now exists r. Qed.

(** Induction along the way [split] reads a text. *)
Lemma crlf_ind (P : pystr -> Prop) :
  P [] ->
  (forall r, P r -> P (13%N :: 10%N :: r)) ->
  (forall c r, starts_with CRLF (c :: r) = false -> P r -> P (c :: r)) ->
  forall s, P s.
Proof.
  intros Hnil Hsep Hchar s.
  assert (H : forall n s, length s <= n -> P s).
  { induction n as [|n IH]; intros [|c r] Hlen; simpl in Hlen;
      try exact Hnil; try lia.
    destruct (starts_with CRLF (c :: r)) eqn:E.
    - destruct (starts_with_crlf_inv _ E) as [r' Heq].
      rewrite Heq. apply Hsep. apply IH.
      injection Heq as -> ->. simpl in Hlen. lia.
    - apply Hchar; [exact E|]. apply IH. lia. }
  apply (H (length s)). lia.
Qed.

Lemma split_crlf_not_nil (s : pystr) : split CRLF s <> [].
Proof.
  induction s as [|r IH|c r Hc IH] using crlf_ind.
  - discriminate.
  - rewrite split_crlf_sep. discriminate.
  - rewrite split_crlf_char by assumption.
    destruct (split CRLF r); discriminate.
Qed.

Lemma join_cons_head (sep : pystr) (c : N) (l : list pystr) :
  l <> [] -> join sep (cons_head c l) = c :: join sep l.
Proof.
  destruct l as [|x [|y l]]; intros H; try congruence; reflexivity.
Qed.

Lemma join_cons (sep x : pystr) (l : list pystr) :
  l <> [] -> join sep (x :: l) = x ++ sep ++ join sep l.
Proof. destruct l; [congruence|reflexivity]. Qed.

(** Joining the lines of a text with CRLF gives the text back. *)
Lemma join_split_crlf (s : pystr) : join CRLF (split CRLF s) = s.
Proof.
  induction s as [|r IH|c r Hc IH] using crlf_ind.
  - reflexivity.
  - rewrite split_crlf_sep, join_cons by apply split_crlf_not_nil.
    now rewrite IH.
  - rewrite split_crlf_char by assumption.
    rewrite join_cons_head by apply split_crlf_not_nil.
    now rewrite IH.
Qed.

Lemma hd_split_crlf_starts (c : N) (r : pystr) :
  starts_with CRLF (c :: r) = false ->
  starts_with CRLF (c :: hd [] (split CRLF r)) = false.
Proof.
  intros H. destruct r as [|d r].
  - simpl. now rewrite andb_false_r.
  - destruct (starts_with CRLF (d :: r)) eqn:E.
    + destruct (starts_with_crlf_inv _ E) as [r' Heq]. rewrite Heq.
      rewrite split_crlf_sep. simpl. now rewrite andb_false_r.
    + rewrite split_crlf_char by assumption.
      simpl in H |- *.
      destruct (split CRLF r); simpl; exact H.
Qed.

(** No line of a split contains the separator. *)
Lemma split_crlf_lines (s : pystr) :
  forall l, In l (split CRLF s) -> contains CRLF l = false.
Proof.
  induction s as [|r IH|c r Hc IH] using crlf_ind; intros l Hin.
  - destruct Hin as [<-|[]]. reflexivity.
  - rewrite split_crlf_sep in Hin. destruct Hin as [<-|Hin];
      [reflexivity|now apply IH].
  - rewrite split_crlf_char in Hin by assumption.
    pose proof (hd_split_crlf_starts _ _ Hc) as Hhd.
    pose proof (split_crlf_not_nil r) as Hne.
    destruct (split CRLF r) as [|x xs]; [congruence|].
    cbn [hd] in Hhd. cbn [cons_head In] in Hin. destruct Hin as [<-|Hin].
    + rewrite contains_cons, Hhd. apply IH. now left.
    + apply IH. now right.
Qed.

End StringFacts.

Section ListFacts.

Lemma firstn_exact (A : Type) (h x : list A) : firstn (length h) (h ++ x) = h.
Proof. induction h as [|a h IH]; simpl; [now destruct x|now rewrite IH]. Qed.

Lemma skipn_exact (A : Type) (h x : list A) : skipn (length h) (h ++ x) = x.
Proof. induction h as [|a h IH]; simpl; [reflexivity|exact IH]. Qed.

Lemma skipn_exact_succ (A : Type) (h : list A) (a : A) (x : list A) :
  skipn (length h + 1) (h ++ a :: x) = x.
Proof.
  replace (length h + 1) with (length (h ++ [a]))
    by (rewrite length_app; reflexivity).
  replace (h ++ a :: x) with ((h ++ [a]) ++ x)
    by (rewrite <- app_assoc; reflexivity).
  apply skipn_exact.
Qed.

Lemma firstn_exact_succ (A : Type) (h : list A) (a : A) (x : list A) :
  firstn (length h + 1) (h ++ a :: x) = h ++ [a].
Proof.
  replace (length h + 1) with (length (h ++ [a]))
    by (rewrite length_app; reflexivity).
  replace (h ++ a :: x) with ((h ++ [a]) ++ x)
    by (rewrite <- app_assoc; reflexivity).
  apply firstn_exact.
Qed.

Lemma insert_exact (h : list pystr) (a : pystr) (x : list pystr) :
  insert (length h) a (h ++ x) = h ++ a :: x.
Proof. unfold insert. now rewrite firstn_exact, skipn_exact. Qed.

(** Where [index] finds an element, the list is cut in three. *)
Lemma index_shape (x : pystr) (l : list pystr) (k : nat) :
  index x l = Some k ->
  l = firstn k l ++ x :: skipn (k + 1) l
  /\ length (firstn k l) = k
  /\ ~ In x (firstn k l).
Proof.
  revert k. induction l as [|y l IH]; intros k H; simpl in H.
  - discriminate.
  - destruct (Str.eqb y x) eqn:E.
    + injection H as <-. apply eqb_eq in E. subst y. simpl. auto.
    + destruct (index x l) as [j|] eqn:Ej; [|discriminate].
      injection H as <-. destruct (IH j eq_refl) as (Hl & Hlen & Hnot).
      apply eqb_neq in E. simpl. repeat split.
      * f_equal. exact Hl.
      * now rewrite Hlen.
      * intros [->|Hin]; [congruence|contradiction].
Qed.

Lemma index_none (x : pystr) (l : list pystr) :
  index x l = None <-> ~ In x l.
Proof.
  induction l as [|y l IH]; simpl.
  - tauto.
  - destruct (Str.eqb y x) eqn:E.
    + apply eqb_eq in E. split; [discriminate|]. intros H. exfalso. auto.
    + apply eqb_neq in E. destruct (index x l); simpl.
      * split; [discriminate|]. intros H. exfalso. apply H. right.
        destruct (in_dec (list_eq_dec N.eq_dec) x l) as [Hin|Hin];
          [exact Hin|]. now apply IH in Hin.
      * split; [|reflexivity]. intros _ [->|Hin]; [congruence|].
        now apply IH in Hin.
Qed.

Lemma total_length_concat (l : list pystr) :
  total_length l = length (concat l).
Proof.
  unfold total_length.
  assert (H : forall n, fold_left (fun acc x => acc + length x) l n
                        = n + length (concat l)).
  { induction l as [|x l IH]; intros n; simpl; [lia|].
    rewrite IH, length_app. lia. }
  now rewrite H.
Qed.

Lemma any_contains_app (p : pystr) (a b : list pystr) :
  any_contains p (a ++ b) = any_contains p a || any_contains p b.
Proof. apply existsb_app. Qed.

End ListFacts.

(** ** The response transformer *)

Section Transformer.

Lemma digit_chars (u : uint) :
  Forall (fun c => (48 <= c <= 57)%N) (lit (NilEmpty.string_of_uint u)).
Proof.
  induction u; simpl; constructor; try exact IHu; cbv; split; congruence.
Qed.

Lemma contains_first_absent (p0 : N) (p s : pystr) :
  Forall (fun c => c <> p0) s -> contains (p0 :: p) s = false.
Proof.
  induction 1 as [|c s Hc Hs IH]; [reflexivity|].
  rewrite contains_cons, IH. simpl.
  destruct (N.eqb_spec p0 c); [congruence|reflexivity].
Qed.

(** The Content-Length line that is added is not mistaken for a
    Connection line. *)
Lemma content_length_line_no_connection (n : nat) :
  contains (lit "Connection: close") (lit "Content-Length: " ++ of_nat n)
  = false.
Proof.
  unfold of_nat. pose proof (digit_chars (Nat.to_uint n)) as Hd.
  revert Hd. generalize (lit (NilEmpty.string_of_uint (Nat.to_uint n))).
  intros d Hd. cbn. apply contains_first_absent.
  eapply Forall_impl; [|exact Hd]. cbv beta. intros c Hc. lia.
Qed.

Lemma connection_after_content_length (h b : list pystr) :
  any_contains (lit "Connection: close") (h ++ content_length_lines h b)
  = any_contains (lit "Connection: close") h.
Proof.
  rewrite any_contains_app. unfold content_length_lines.
  destruct (any_contains (lit "Content-Length") h).
  - apply orb_false_r.
  - unfold any_contains at 2. cbn [existsb].
    rewrite content_length_line_no_connection. now rewrite !orb_false_r.
Qed.

Lemma add_content_length_shape (h b : list pystr) :
  add_content_length (h ++ [] :: b, length h)
  = ((h ++ content_length_lines h b) ++ [] :: b,
     length (h ++ content_length_lines h b)).
Proof.
  unfold add_content_length, content_length_lines.
  rewrite firstn_exact, skipn_exact_succ.
  destruct (any_contains (lit "Content-Length") h); cbn [negb].
  - now rewrite app_nil_r.
  - rewrite insert_exact, length_app, <- app_assoc. reflexivity.
Qed.

Lemma add_connection_close_shape (h b : list pystr) :
  add_connection_close (h ++ [] :: b, length h)
  = ((h ++ (if any_contains (lit "Connection: close") h then []
            else [lit "Connection: close"])) ++ [] :: b,
     length (h ++ (if any_contains (lit "Connection: close") h then []
                   else [lit "Connection: close"]))).
Proof.
  unfold add_connection_close. rewrite firstn_exact.
  destruct (any_contains (lit "Connection: close") h); cbn [negb].
  - now rewrite app_nil_r.
  - rewrite insert_exact, length_app, <- app_assoc. reflexivity.
Qed.

Lemma add_cache_hit_shape (in_cache : bool) (h b : list pystr) :
  reconstruct (add_cache_hit in_cache (h ++ [] :: b, length h))
  = render (h ++ [cache_hit_line in_cache]) (concat b).
Proof.
  unfold add_cache_hit, cache_hit_line, render.
  destruct in_cache; unfold reconstruct;
    now rewrite insert_exact, firstn_exact_succ, skipn_exact_succ.
Qed.

(** The three insertions and the reassembly, on lines cut at the first
    empty one. *)
Lemma normalize_shape (in_cache : bool) (h b : list pystr) :
  reconstruct
    (add_cache_hit in_cache
       (add_connection_close (add_content_length (h ++ [] :: b, length h))))
  = render
      (h ++ content_length_lines h b ++ connection_lines h
         ++ [cache_hit_line in_cache])
      (concat b).
Proof.
  rewrite add_content_length_shape, add_connection_close_shape.
  rewrite add_cache_hit_shape, connection_after_content_length.
  unfold connection_lines. now rewrite <- !app_assoc.
Qed.

(** What [add_length_and_cache_to_header] returns on a response whose
    first empty line is line [k]. *)
Lemma add_length_and_cache_to_header_shape (response : pystr)
    (in_cache : bool) (k : nat) :
  index [] (split CRLF response) = Some k ->
  add_length_and_cache_to_header response in_cache
  = Ret (render
           (header_lines response k
              ++ content_length_lines (header_lines response k)
                   (body_lines response k)
              ++ connection_lines (header_lines response k)
              ++ [cache_hit_line in_cache])
           (concat (body_lines response k))).
Proof.
  intros Hk. unfold add_length_and_cache_to_header. rewrite Hk.
  destruct (index_shape _ _ _ Hk) as (Hl & Hlen & _).
  unfold header_lines, body_lines.
  set (h := firstn k (split CRLF response)) in *.
  set (b := skipn (k + 1) (split CRLF response)) in *.
  rewrite Hl at 1. rewrite <- Hlen at 1.
  now rewrite normalize_shape.
Qed.

(** It raises [ValueError] exactly when no line is empty. *)
Lemma add_length_and_cache_to_header_raises (response : pystr)
    (in_cache : bool) :
  ~ In [] (split CRLF response) <->
  add_length_and_cache_to_header response in_cache = Raise ValueError.
Proof.
  unfold add_length_and_cache_to_header. rewrite <- index_none.
  destruct (index [] (split CRLF response)); split; congruence.
Qed.

End Transformer.

(** ** Empty lines *)

Section BlankLines.

Lemma join_app (sep : pystr) (a b : list pystr) :
  a <> [] -> b <> [] ->
  join sep (a ++ b) = join sep a ++ sep ++ join sep b.
Proof.
  intros Ha Hb. induction a as [|x a IH]; [congruence|].
  destruct a as [|y a].
  - simpl app. now rewrite join_cons.
  - change ((x :: y :: a) ++ b) with (x :: (y :: a) ++ b).
    rewrite !join_cons by discriminate.
    rewrite IH by discriminate. now rewrite <- !app_assoc.
Qed.

Lemma ends_with_inv (p s : pystr) :
  ends_with p s = true -> exists a, s = a ++ p.
Proof.
  intros H. destruct (starts_with_inv _ _ H) as [r Hr].
  exists (rev r). rewrite <- (rev_involutive s), Hr, rev_app_distr.
  now rewrite rev_involutive.
Qed.

Lemma starts_with_prefix (p q s : pystr) :
  starts_with (p ++ q) s = true -> starts_with p s = true.
Proof.
  intros H. destruct (starts_with_inv _ _ H) as [r ->].
  rewrite <- app_assoc. apply starts_with_app.
Qed.

(** An empty line comes from an empty text, a CRLF at either end, or
    two CRLF in a row. *)
Lemma blank_line_cases (s : pystr) :
  In [] (split CRLF s) ->
  s = [] \/ starts_with CRLF s = true \/ ends_with CRLF s = true
  \/ contains (CRLF ++ CRLF) s = true.
Proof.
  intros Hin. pose proof (join_split_crlf s) as Hs.
  destruct (in_split _ _ Hin) as (a & b & Hab). rewrite Hab in Hs.
  clear Hin Hab. subst s.
  destruct a as [|x a], b as [|y b].
  - now left.
  - right. left. rewrite app_nil_l, join_cons by discriminate.
    rewrite app_nil_l. apply starts_with_app.
  - right. right. left. rewrite join_app by discriminate.
    change (join CRLF [[]]) with (@nil N). rewrite app_nil_r.
    apply ends_with_app.
  - right. right. right. rewrite join_app by discriminate.
    rewrite (join_cons CRLF []) by discriminate.
    rewrite app_nil_l, (app_assoc CRLF CRLF). apply contains_app.
Qed.

Lemma blank_line_after_end (a : pystr) :
  In [] (tl (split CRLF (a ++ CRLF))).
Proof.
  induction a as [|r IH|c r Hc IH] using crlf_ind.
  - now left.
  - change ((13%N :: 10%N :: r) ++ CRLF) with (13%N :: 10%N :: r ++ CRLF).
    rewrite split_crlf_sep. cbn [tl].
    destruct (split CRLF (r ++ CRLF)); [contradiction|now right].
  - change ((c :: r) ++ CRLF) with (c :: r ++ CRLF).
    rewrite split_crlf_char.
    + destruct (split CRLF (r ++ CRLF)); [contradiction|exact IH].
    + destruct r as [|d r]; [|exact Hc].
      simpl. now rewrite andb_false_r.
Qed.

Lemma blank_line_between (s : pystr) :
  contains (CRLF ++ CRLF) s = true -> In [] (tl (split CRLF s)).
Proof.
  induction s as [|r IH|c r Hc IH] using crlf_ind; intros H.
  - discriminate.
  - rewrite split_crlf_sep. cbn [tl].
    destruct (starts_with CRLF r) eqn:E.
    + destruct (starts_with_crlf_inv _ E) as [r' ->].
      rewrite split_crlf_sep. now left.
    + assert (Hr : contains (CRLF ++ CRLF) r = true).
      { rewrite !contains_cons in H.
        change (starts_with (CRLF ++ CRLF) (13%N :: 10%N :: r))
          with (starts_with CRLF r) in H. rewrite E in H.
        change (starts_with (CRLF ++ CRLF) (10%N :: r)) with false in H.
        exact H. }
      destruct (split CRLF r); [now apply IH in Hr|right; now apply IH].
  - rewrite split_crlf_char by assumption.
    assert (Hr : contains (CRLF ++ CRLF) r = true).
    { rewrite contains_cons in H.
      destruct (starts_with (CRLF ++ CRLF) (c :: r)) eqn:E; [|exact H].
      apply starts_with_prefix in E. congruence. }
    destruct (split CRLF r); [now apply IH in Hr|now apply IH].
Qed.

Lemma in_tl (A : Type) (x : A) (l : list A) : In x (tl l) -> In x l.
Proof. destruct l; [tauto|now right]. Qed.

Lemma lacks_blank_line_iff (s : pystr) :
  lacks_blank_line s = true <-> ~ In [] (split CRLF s).
Proof.
  unfold lacks_blank_line. rewrite !andb_true_iff, !negb_true_iff.
  split.
  - intros [[[He Hs] Hf] Hc] Hin. apply eqb_neq in He.
    destruct (blank_line_cases _ Hin) as [H|[H|[H|H]]]; congruence.
  - intros Hno. repeat split.
    + apply eqb_neq. intros ->. apply Hno. now left.
    + destruct (starts_with CRLF s) eqn:E; [|reflexivity]. exfalso.
      destruct (starts_with_crlf_inv _ E) as [r ->]. apply Hno.
      rewrite split_crlf_sep. now left.
    + destruct (ends_with CRLF s) eqn:E; [|reflexivity]. exfalso.
      destruct (ends_with_inv _ _ E) as [a ->]. apply Hno.
      apply in_tl, blank_line_after_end.
    + destruct (contains (CRLF ++ CRLF) s) eqn:E; [|reflexivity]. exfalso.
      apply Hno. now apply in_tl, blank_line_between.
Qed.

End BlankLines.

(** ** Headers added by the transformer *)

Section AddedHeaders.

Lemma encode_ascii (s : pystr) :
  is_ascii s = true ->
  exists sent, encode s = Some sent /\ length sent = length s.
Proof.
  induction s as [|c s IH]; intros H.
  - now exists [].
  - simpl in H. apply andb_true_iff in H. destruct H as [Hc Hs].
    destruct (IH Hs) as (sent & He & Hl).
    exists (byte_of c :: sent). cbn [encode]. unfold encode_char.
    rewrite Hc, He. simpl. now rewrite Hl.
Qed.

Lemma length_join (sep : pystr) (l : list pystr) :
  length (join sep l)
  = length (concat l) + length sep * (length l - 1).
Proof.
  induction l as [|x l IH]; [simpl; lia|].
  destruct l as [|y l].
  - simpl. rewrite app_nil_r. lia.
  - rewrite join_cons by discriminate.
    change (concat (x :: y :: l)) with (x ++ concat (y :: l)).
    rewrite !length_app, IH. simpl length. lia.
Qed.

Lemma in_skipn (A : Type) (x : A) (n : nat) (l : list A) :
  In x (skipn n l) -> In x l.
Proof.
  intros H. rewrite <- (firstn_skipn n l). apply in_or_app. now right.
Qed.

(** Body lines that still hold a CRLF once joined are at least two, and
    gluing them loses the separators. *)
Lemma glued_body_differs (response : pystr) (k : nat) :
  contains CRLF (join CRLF (body_lines response k)) = true ->
  concat (body_lines response k) <> join CRLF (body_lines response k).
Proof.
  intros H Heq.
  assert (Hlines : forall l, In l (body_lines response k) ->
                             contains CRLF l = false).
  { intros l Hl. apply (split_crlf_lines response).
    unfold body_lines in Hl. now apply in_skipn in Hl. }
  apply (f_equal (@length N)) in Heq. rewrite length_join in Heq.
  destruct (body_lines response k) as [|x [|y l]].
  - discriminate.
  - simpl in H. rewrite Hlines in H by now left. discriminate.
  - simpl in Heq. lia.
Qed.



(** C9.  On the response whose body is the one character U+00E9,
    [add_length_and_cache_to_header] inserts [Content-Length: 1], the
    number of characters of the body it returns ([len] of a [str], lines
    441-446), while that body is sent as two bytes: the value inserted is
    not the byte length of the body. *)
Theorem content_length_not_byte_length :
  add_length_and_cache_to_header response_200_e_acute false
  = Ret (render
           [lit "HTTP/1.0 200 OK"; lit "Content-Length: 1";
            lit "Connection: close"; lit "Cache-Hit: 0"]
           [233%N])
  /\ option_map (@length byte) (encode [233%N]) = Some 2.
Proof. split; vm_compute; reflexivity. Qed.

(** Where the body returned is ASCII text, characters and bytes are the
    same: when [add_length_and_cache_to_header] adds a Content-Length
    header, its value is then the number of bytes [sent] of that body, which
    is the body lines of the input with nothing between them; the input is
    its header lines, an empty line and its body lines joined by CRLF, and
    the body returned differs from the body of the input whenever that one
    contains a CRLF. *)
Lemma content_length_is_ascii_body_length (response : pystr)
    (in_cache : bool) (k : nat) :
  index [] (split CRLF response) = Some k ->
  any_contains (lit "Content-Length") (header_lines response k) = false ->
  is_ascii (concat (body_lines response k)) = true ->
  exists sent,
    encode (concat (body_lines response k)) = Some sent
    /\ add_length_and_cache_to_header response in_cache
       = Ret (render
                (header_lines response k
                   ++ [lit "Content-Length: " ++ of_nat (length sent)]
                   ++ connection_lines (header_lines response k)
                   ++ [cache_hit_line in_cache])
                (concat (body_lines response k)))
    /\ response
       = join CRLF (header_lines response k ++ [] :: body_lines response k)
    /\ (contains CRLF (join CRLF (body_lines response k)) = true ->
        concat (body_lines response k)
        <> join CRLF (body_lines response k)).
Proof.
  intros Hk Hnone Hascii.
  destruct (encode_ascii _ Hascii) as (sent & Hsent & Hlen).
  exists sent. split; [exact Hsent|]. split; [|split].
  - rewrite (add_length_and_cache_to_header_shape _ in_cache _ Hk).
    unfold content_length_lines. rewrite Hnone.
    now rewrite total_length_concat, Hlen.
  - destruct (index_shape _ _ _ Hk) as (Hl & _ & _).
    unfold header_lines, body_lines.
    transitivity (join CRLF (split CRLF response));
      [symmetry; apply join_split_crlf|f_equal; exact Hl].
  - apply glued_body_differs.
Qed.

(** At a response with the body lines [he] and [llo]: the header added is
    [Content-Length: 5] and the body sent is [hello]. *)
Lemma content_length_is_ascii_body_length_witness :
  index [] (split CRLF response_200_two_lines) = Some 1
  /\ any_contains (lit "Content-Length")
       (header_lines response_200_two_lines 1) = false
  /\ is_ascii (concat (body_lines response_200_two_lines 1)) = true
  /\ exists sent,
       encode (concat (body_lines response_200_two_lines 1)) = Some sent
       /\ add_length_and_cache_to_header response_200_two_lines false
          = Ret (render
                   (header_lines response_200_two_lines 1
                      ++ [lit "Content-Length: " ++ of_nat (length sent)]
                      ++ connection_lines
                           (header_lines response_200_two_lines 1)
                      ++ [cache_hit_line false])
                   (concat (body_lines response_200_two_lines 1)))
       /\ response_200_two_lines
          = join CRLF (header_lines response_200_two_lines 1
                         ++ [] :: body_lines response_200_two_lines 1)
       /\ (contains CRLF (join CRLF (body_lines response_200_two_lines 1))
           = true ->
           concat (body_lines response_200_two_lines 1)
           <> join CRLF (body_lines response_200_two_lines 1)).
Proof.
  repeat (split; [reflexivity|]).
  apply (content_length_is_ascii_body_length response_200_two_lines
           false 1); reflexivity.
Defined.

End AddedHeaders.

(** ** The connection handler *)

Section Handler.

Context {lib : Library}.

Lemma after_nil (w : world) : after w [] = w.
Proof. destruct w. unfold after. simpl. now rewrite app_nil_r. Qed.

Lemma after_after (w : world) (a b : list event) :
  after (after w a) b = after w (a ++ b).
Proof. unfold after. simpl. now rewrite app_assoc. Qed.

Lemma emit_after (e : event) (w : world) : emit e w = (after w [e], Ret tt).
Proof. reflexivity. Qed.

Lemma send_client_after (response : pystr) (data : list byte) (w : world) :
  encode response = Some data ->
  send_client response w = (after w [ClientSend data], Ret tt).
Proof. intros H. unfold send_client, bind, expect. now rewrite H. Qed.

Lemma encode_response500_fixed :
  encode response500_fixed = Some (utf8 response500_fixed).
Proof. vm_compute. reflexivity. Qed.

(** Line 236: whatever was received, the handler stops on an exception
    before it answers, and leaves the connection open. *)
Lemma handle_request_stops_at_print (data : list byte)
    (origin : origin_server) (w : world) :
  exists e,
    handle_request (Some data) origin w = (w, Raise e)
    /\ (e = UnicodeDecodeError \/ e = UnicodeEncodeError \/ e = TypeError).
Proof.
  unfold handle_request, bind, expect, lift.
  destruct (decode data) as [request|]; simpl.
  - destruct (encode request) as [encoded|]; simpl; eauto.
  - eauto.
Qed.

(** Lines 238-243 alone do what is expected of an invalid request. *)
Lemma answer_invalid_request (origin : origin_server) (request : pystr)
    (w : world) :
  check_request_validity request = false ->
  answer_request origin request w
  = (after w [ClientSend (utf8 response500_fixed); ClientClose], Ret tt).
Proof.
  intros H. unfold answer_request. rewrite H. cbn [negb].
  unfold bind, lift. cbn [create_500_response].
  rewrite (send_client_after _ _ w encode_response500_fixed).
  rewrite emit_after, after_after. reflexivity.
Qed.

(** Lines 272 and 280 compare a string with a number: whatever the
    status, the response is turned into a 500 and the cache is left
    alone. *)
Lemma forward_response_always_500 (response_from_server : pystr)
    (w : world) :
  forward_response response_from_server w
  = (status_code <- lift (get_status_code response_from_server) ;;
     response <- lift (create_500_response (Some response_from_server)) ;;
     send_client response) w.
Proof. reflexivity. Qed.

Lemma forward_response_keeps_files (response_from_server : pystr)
    (w w' : world) (r : result unit) :
  forward_response response_from_server w = (w', r) ->
  files w' = files w /\ self w' = self w.
Proof.
  rewrite forward_response_always_500. unfold bind, lift, send_client, expect.
  destruct (get_status_code response_from_server);
    [|intros [= <- _]; auto].
  destruct (create_500_response (Some response_from_server)) as [text|];
    [|intros [= <- _]; auto].
  destruct (encode text); simpl; intros [= <- _]; auto.
Qed.

End Handler.

(** ** The handler on the examples *)

Section Examples.

Existing Instance plain_urls.

Lemma parse_request_with_port :
  parse_request request_with_port start = (parsed_with_port, Ret tt).
Proof. vm_compute. reflexivity. Qed.

(** C1.  The origin answers [HTTP/1.0 200 OK] with the body [hello].  The
    status code read from it is the string ["200"], which is not the number
    200: the response is not stored, the files and attributes are left as
    they were, and what is sent is a 500 made from it. *)
Theorem status_200_is_answered_with_500 :
  get_status_code response_200_hello = Ret (lit "200")
  /\ py_eq (PyStr (lit "200")) (PyInt 200) = false
  /\ forward_response response_200_hello parsed_with_port
     = (after parsed_with_port
          [ClientSend
             (utf8 (render [status_500; lit "Content-Length: 5";
                            lit "Connection: close"; lit "Cache-Hit: 0"]
                      (lit "hello")))],
        Ret tt).
Proof. repeat split; vm_compute; reflexivity. Qed.

(** C2.  The body [hello] is stored for the key of [request_with_port] and
    read back.  The entry is written under [./cache/./cache/], where it is
    not looked up, so the read ends the process; and were the body at the
    place it is read from, [add_length_and_cache_to_header] would raise
    [ValueError] on it, since it has no empty line, and nothing would be
    sent. *)
Theorem cached_body_is_not_served :
  (exists w,
     store_response_in_cache response_200_hello parsed_with_port = (w, Ret tt)
     /\ FS.read (files w) (lit "./cache/./cache/example.com/a.txt")
        = Some (utf8 (lit "hello"))
     /\ FS.read (files w) (lit "./cache/example.com/a.txt") = None
     /\ snd (check_file_in_cache w) = Ret false
     /\ snd (serve_from_cache w) = Raise (SystemExit None))
  /\ serve_from_cache (with_entry (utf8 (lit "hello")))
     = (after (with_entry (utf8 (lit "hello")))
          [CacheRead (lit "./cache/example.com/a.txt")],
        Raise ValueError)
  /\ add_length_and_cache_to_header (lit "hello") true = Raise ValueError.
Proof.
  split; [|split; vm_compute; reflexivity].
  eexists. split; [vm_compute; reflexivity|].
  repeat split; vm_compute; reflexivity.
Qed.

(** C3.  The validator refuses the request of an HTTP/1.0 client and a
    three-line request whose first line is a well-formed request line,
    because it compares the whole first line with ["GET"]; it accepts
    method, URL and version on a line each. *)
Theorem request_line_is_refused :
  check_request_validity request_line_get = false
  /\ check_request_validity request_three_lines = false
  /\ check_request_validity request_one_per_line = true
  /\ split CRLF request_three_lines
     = [lit "GET http://example.com/a.txt HTTP/1.0";
        lit "Host: example.com"; lit "HTTP/1.0"]
  /\ split (lit " ") (lit "GET http://example.com/a.txt HTTP/1.0")
     = [lit "GET"; lit "http://example.com/a.txt"; lit "HTTP/1.0"].
Proof. repeat split; vm_compute; reflexivity. Qed.

(** C4.  A valid request whose URL has no port: [parse_request] raises
    [AttributeError] where it reads [url_parsed], after it has put [:80]
    at the end of the network location. *)
Theorem parse_request_without_port_raises :
  check_request_validity request_without_port = true
  /\ snd (parse_request request_without_port start) = Raise AttributeError
  /\ option_map netloc
       (request_url_parsed
          (self (fst (parse_request request_without_port start))))
     = Some (lit "example.com:80")
  /\ url_parsed (self (fst (parse_request request_without_port start)))
     = None.
Proof. repeat split; vm_compute; reflexivity. Qed.

(** C5, as stated, fails both ways.  In the program, [handle_request]
    given the bytes of a valid request without a port raises [TypeError] at
    line 236 and leaves the server as it was: [parse_request] has not run
    and no attribute was read.  And in lines 238-296 taken alone, a valid
    request whose key is not in the cache, to an origin that refuses the
    connection, raises nothing: the fixed 500 response is sent and the
    connection closed. *)
Lemma origin_fetch_not_as_stated :
  check_request_validity request_without_port = true
  /\ decode (utf8 request_without_port) = Some request_without_port
  /\ handle_request (Some (utf8 request_without_port)) origin_up start
     = (start, Raise TypeError)
  /\ request_method (self start) = None
  /\ check_request_validity request_with_port = true
  /\ FS.is_file cache_only (lit "./cache/example.com/a.txt") = false
  /\ answer_request origin_down request_with_port start
     = (after parsed_with_port
          [CacheStat (lit "./cache/example.com/a.txt");
           OriginConnect (lit "example.com") 8080;
           ClientSend (utf8 response500_fixed);
           ClientClose],
        Ret tt).
Proof. repeat split; vm_compute; reflexivity. Qed.

(** C6.  A POST request is invalid, and the handler given its bytes stops
    at line 236 with [TypeError]: nothing is sent, the connection is not
    closed, and the exception is not one [accept_connection] catches. *)
Theorem invalid_request_is_not_answered :
  check_request_validity request_line_post = false
  /\ decode (utf8 request_line_post) = Some request_line_post
  /\ handle_request (Some (utf8 request_line_post)) origin_up start
     = (start, Raise TypeError)
  /\ accept_connection_once (Some (utf8 request_line_post)) origin_up start
     = (start, Raise TypeError).
Proof. repeat split; vm_compute; reflexivity. Qed.

(** C7, as stated, fails on an empty cached body: it has no two CRLF in
    a row and does not end with one, and the hit path sends a response. *)
Lemma empty_cached_body_is_served :
  contains (CRLF ++ CRLF) [] = false
  /\ ends_with CRLF [] = false
  /\ serve_from_cache (with_entry [])
     = (after (with_entry [])
          [CacheRead (lit "./cache/example.com/a.txt");
           ClientSend
             (utf8 (render [lit "Content-Length: 0"; lit "Connection: close";
                            lit "Cache-Hit: 1"] []))],
        Ret tt).
Proof. repeat split; vm_compute; reflexivity. Qed.

(** C10.  With no argument on the command line, on a cache entry that
    cannot be read and on one that cannot be written, the exception is
    [SystemExit] with no code, and the exit status is 0; a socket that
    cannot be created gives status 1. *)
Theorem exits_have_status_zero :
  get_port_num [lit "proxy.py"] = Raise (SystemExit None)
  /\ snd (get_response_from_cache parsed_with_port) = Raise (SystemExit None)
  /\ snd (store_response_in_cache response_200_hello
            with_directory_in_the_way) = Raise (SystemExit None)
  /\ exit_status (SystemExit None) = 0%Z
  /\ snd (create_socket
            {| socket_created := false; accepts_connection := true;
               accepts_request := true; reply := [] |} start)
     = Raise (SystemExit (Some 1%Z))
  /\ exit_status (SystemExit (Some 1%Z)) = 1%Z.
Proof. repeat split; vm_compute; reflexivity. Qed.

End Examples.

(** ** The way to the origin *)

Section OriginFetch.

Context {lib : Library}.

Ltac run :=
  unfold attr, sys_exit, set_request_method, set_request_version,
    set_request_url_parsed, set_url_parsed;
  unfold bind, expect, getitem, lift, ret, raise, emit, get_files,
    set_files, set_self, try_except;
  cbn [nth_error self files trace request_url_parsed request_method
         request_version url_parsed port_num parsed negb].

Variables (request m u v : pystr) (rest : list pystr) (url : ParseResult).

Hypothesis fields : split (lit " ") request = m :: u :: v :: rest.
Hypothesis target : urlparse (strip u) = Ret url.

(** With a port in the URL the request is parsed. *)
Lemma parse_request_port (n : Z) (w : world) :
  port url = Ret (Some n) ->
  parse_request request w = (parsed w m v url, Ret tt).
Proof.
  intros Hp. unfold parse_request. rewrite fields. run.
  rewrite target. run. rewrite Hp. reflexivity.
Qed.

(** With none, [parse_request] stops at line 320, where it reads
    [url_parsed]. *)
Lemma parse_request_no_port (w : world) :
  url_parsed (self w) = None ->
  port url = Ret None ->
  parse_request request w
  = (parsed w m v (replace_netloc url (netloc url ++ lit ":80")),
     Raise AttributeError).
Proof.
  intros Hn Hp. unfold parse_request. rewrite fields. run.
  rewrite target. run. rewrite Hp. run. rewrite Hn.
  unfold parsed. now rewrite Hn.
Qed.

Lemma check_file_in_cache_parsed (host : pystr) (w : world) :
  hostname url = Some host ->
  check_file_in_cache (parsed w m v url)
  = (after (parsed w m v url) [CacheStat (lit "./cache/" ++ host ++ path url)],
     Ret (FS.is_file (files w) (lit "./cache/" ++ host ++ path url))).
Proof.
  intros Hh. unfold check_file_in_cache, cache_path, path_is_file, parsed.
  run.
  rewrite Hh. cbn [operand_of str_add]. rewrite <- app_assoc. reflexivity.
Qed.

(** Once connected, [send_request_to_server] stops at line 540, where it
    reads [url_parsed]; nothing has been sent to the origin. *)
Lemma send_request_to_server_connected (origin : origin_server)
    (host : pystr) (n : Z) (w : world) :
  url_parsed (self w) = None ->
  hostname url = Some host ->
  port url = Ret (Some n) ->
  socket_created origin = true ->
  accepts_connection origin = true ->
  send_request_to_server origin (parsed w m v url)
  = (after (parsed w m v url) [OriginConnect host n], Raise AttributeError).
Proof.
  intros Hn Hh Hp Hs Ha.
  unfold send_request_to_server, create_socket, parsed.
  rewrite Hs. run. rewrite Hp, Hh. run. rewrite Ha. run. rewrite Hn.
  reflexivity.
Qed.

(** When the connection is refused it returns [None]. *)
Lemma send_request_to_server_refused (origin : origin_server)
    (host : pystr) (n : Z) (w : world) :
  hostname url = Some host ->
  port url = Ret (Some n) ->
  socket_created origin = true ->
  accepts_connection origin = false ->
  send_request_to_server origin (parsed w m v url)
  = (after (parsed w m v url) [OriginConnect host n], Ret None).
Proof.
  intros Hh Hp Hs Ha.
  unfold send_request_to_server, create_socket, parsed.
  rewrite Hs. run. rewrite Hp, Hh. run. rewrite Ha. reflexivity.
Qed.

End OriginFetch.

Section OriginFetchAnswer.

Context {lib : Library}.

Ltac run :=
  unfold attr, sys_exit, set_request_method, set_request_version,
    set_request_url_parsed, set_url_parsed;
  unfold bind, expect, getitem, lift, ret, raise, emit, get_files,
    set_files, set_self, try_except;
  cbn [nth_error self files trace request_url_parsed request_method
         request_version url_parsed port_num parsed negb].

(** [parse_request] either raises, having touched neither the files nor
    the sockets, or has found three fields and a URL with a port. *)
Lemma parse_request_outcome (request : pystr) (w : world) :
  url_parsed (self w) = None ->
  (exists w1 e,
     parse_request request w = (w1, Raise e)
     /\ trace w1 = trace w /\ files w1 = files w)
  \/ (exists m u v rest url n,
        split (lit " ") request = m :: u :: v :: rest
        /\ urlparse (strip u) = Ret url
        /\ port url = Ret (Some n)).
Proof.
  intros Hn.
  destruct (split (lit " ") request) as [|m [|u [|v rest]]] eqn:Hs;
    try (left; unfold parse_request; rewrite Hs; run;
         do 2 eexists; split; [reflexivity|split; reflexivity]).
  destruct (urlparse (strip u)) as [url|e] eqn:Hu.
  - destruct (port url) as [[n|]|e] eqn:Hp.
    + right. exists m, u, v, rest, url, n. auto.
    + left. do 2 eexists.
      split; [exact (parse_request_no_port request m u v rest url Hs Hu w Hn Hp)|].
      split; reflexivity.
    + left. unfold parse_request. rewrite Hs. run. rewrite Hu. run.
      rewrite Hp. do 2 eexists. split; [reflexivity|split; reflexivity].
  - left. unfold parse_request. rewrite Hs. run. rewrite Hu.
    do 2 eexists. split; [reflexivity|split; reflexivity].
Qed.

(** Lines 238-296 on a valid request whose key is not in the cache, when
    the origin accepts the connection: an exception is raised and nothing
    has been sent to the client, whatever the request line holds. *)
Lemma origin_fetch_raises_when_connected (origin : origin_server)
    (request : pystr) (w : world) :
  url_parsed (self w) = None ->
  check_request_validity request = true ->
  key_cached request w = false ->
  accepts_connection origin = true ->
  exists w' e events,
    answer_request origin request w = (w', Raise e)
    /\ trace w' = trace w ++ events
    /\ no_client_send events = true
    /\ (forall m u v rest url,
          split (lit " ") request = m :: u :: v :: rest ->
          urlparse (strip u) = Ret url ->
          (port url = Ret None -> e = AttributeError /\ events = [])
          /\ (forall n host,
                port url = Ret (Some n) ->
                hostname url = Some host ->
                socket_created origin = true ->
                e = AttributeError
                /\ events
                   = [CacheStat (lit "./cache/" ++ host ++ path url);
                      OriginConnect host n])).
Proof.
  intros Hn Hvalid Hkey Hacc. unfold answer_request. rewrite Hvalid.
  cbn [negb].
  destruct (parse_request_outcome request w Hn)
    as [(w1 & e & Hpr & Htr & Hf)|(m & u & v & rest & url & n & Hs & Hu & Hp)].
  - exists w1, e, []. unfold bind at 1. rewrite Hpr.
    split; [reflexivity|]. split; [now rewrite app_nil_r|].
    split; [reflexivity|]. intros m u v rest url Hs Hu. split.
    + intros Hp. rewrite (parse_request_no_port request m u v rest url Hs Hu w Hn Hp) in Hpr.
      injection Hpr as _ <-. auto.
    + intros n host Hp _ _.
      rewrite (parse_request_port request m u v rest url Hs Hu n w Hp) in Hpr.
      discriminate.
  - pose proof (parse_request_port request m u v rest url Hs Hu n w Hp)
      as Hparse.
    unfold bind at 1. rewrite Hparse.
    unfold key_cached in Hkey. rewrite Hparse in Hkey.
    destruct (hostname url) as [host|] eqn:Hh.
    + unfold bind at 1.
      rewrite (check_file_in_cache_parsed m v url host w Hh) in Hkey |- *.
      destruct (FS.is_file (files w) (lit "./cache/" ++ host ++ path url));
        [discriminate|].
      destruct (socket_created origin) eqn:Hsock.
      * unfold bind at 1.
        pose proof (send_request_to_server_connected m v url origin host n
                      (after w [CacheStat (lit "./cache/" ++ host ++ path url)])
                      Hn Hh Hp Hsock Hacc) as Hsend.
        change (after (parsed w m v url)
                  [CacheStat (lit "./cache/" ++ host ++ path url)])
          with (parsed (after w [CacheStat (lit "./cache/" ++ host ++ path url)])
                  m v url).
        rewrite Hsend. do 3 eexists. split; [reflexivity|].
        split; [cbn [after parsed trace]; rewrite <- app_assoc; reflexivity|].
        split; [reflexivity|].
        intros m' u' v' rest' url' Hs' Hu'. rewrite Hs in Hs'.
        injection Hs' as <- <- <- <-. rewrite Hu in Hu'.
        injection Hu' as <-. split; [congruence|].
        intros n' host' Hp' Hh' _. rewrite Hp in Hp'. rewrite Hh in Hh'.
        injection Hp' as <-. injection Hh' as <-. auto.
      * unfold bind at 1. unfold send_request_to_server, create_socket.
        rewrite Hsock. run. do 3 eexists. split; [reflexivity|].
        split; [reflexivity|]. split; [reflexivity|].
        intros m' u' v' rest' url' Hs' Hu'. rewrite Hs in Hs'.
        injection Hs' as <- <- <- <-. rewrite Hu in Hu'.
        injection Hu' as <-. split; [congruence|].
        intros n' host' _ _ Hfalse. discriminate.
    + unfold bind at 1. unfold check_file_in_cache, cache_path, parsed.
      run. rewrite Hh. cbn [operand_of str_add].
      do 3 eexists. split; [reflexivity|].
      split; [cbn [trace]; now rewrite app_nil_r|]. split; [reflexivity|].
      intros m' u' v' rest' url' Hs' Hu'. rewrite Hs in Hs'.
      injection Hs' as <- <- <- <-. rewrite Hu in Hu'.
      injection Hu' as <-. split; [congruence|].
      intros n' host' _ Hh' _. congruence.
Qed.

(** C5, amended.  With [url_parsed] never assigned, lines 238-296 on a
    valid request:
    - when its key is not in the cache and the origin accepts the
      connection, an exception is raised and nothing has been sent to the
      client;
    - when the request line has at least three fields separated by spaces
      and the second, stripped, is a URL that [urlparse] takes:
      - if the [port] property gives [None], [parse_request] raises
        [AttributeError] at line 320, where it reads [url_parsed], before
        any event;
      - if it gives a number, the URL has a hostname, the key is not in
        the cache and the socket is created, then with the connection
        accepted [send_request_to_server] raises [AttributeError] at
        line 540, where it reads [url_parsed], after the lookup and the
        connection and before anything is sent; and with the connection
        refused it returns [None] without reading it, and the fixed 500
        response is sent and the connection closed.
    In the program these lines are not reached: whatever bytes are
    received, [handle_request] raises at line 236 and changes nothing. *)
Theorem origin_fetch_after_line_236 (origin : origin_server)
    (request : pystr) (w : world) :
  url_parsed (self w) = None ->
  check_request_validity request = true ->
  (key_cached request w = false ->
   accepts_connection origin = true ->
   exists w' e events,
     answer_request origin request w = (w', Raise e)
     /\ trace w' = trace w ++ events
     /\ no_client_send events = true)
  /\ (forall m u v rest url,
        split (lit " ") request = m :: u :: v :: rest ->
        urlparse (strip u) = Ret url ->
        (port url = Ret None ->
         answer_request origin request w
         = (parsed w m v (replace_netloc url (netloc url ++ lit ":80")),
            Raise AttributeError))
        /\ (forall n host,
              port url = Ret (Some n) ->
              hostname url = Some host ->
              FS.is_file (files w) (lit "./cache/" ++ host ++ path url)
              = false ->
              socket_created origin = true ->
              (accepts_connection origin = true ->
               answer_request origin request w
               = (after (parsed w m v url)
                    [CacheStat (lit "./cache/" ++ host ++ path url);
                     OriginConnect host n],
                  Raise AttributeError))
              /\ (accepts_connection origin = false ->
                  snd (send_request_to_server origin (parsed w m v url))
                  = Ret None
                  /\ answer_request origin request w
                     = (after (parsed w m v url)
                          [CacheStat (lit "./cache/" ++ host ++ path url);
                           OriginConnect host n;
                           ClientSend (utf8 response500_fixed);
                           ClientClose],
                        Ret tt))))
  /\ (forall data,
        exists e, handle_request (Some data) origin w = (w, Raise e)).
Proof.
  intros Hn Hvalid. split; [|split].
  - intros Hkey Hacc.
    destruct (origin_fetch_raises_when_connected origin request w
                Hn Hvalid Hkey Hacc)
      as (w' & e & events & Hrun & Htrace & Hsend & _).
    exists w', e, events. auto.
  - intros m u v rest url Hs Hu. split.
    + intros Hp. unfold answer_request. rewrite Hvalid. cbn [negb].
      unfold bind at 1.
      now rewrite (parse_request_no_port request m u v rest url Hs Hu w Hn Hp).
    + intros n host Hp Hh Hmiss Hsock.
      assert (Hlook :
        answer_request origin request w
        = (response <- send_request_to_server origin ;;
           match response with
           | None =>
               response <- lift (create_500_response None) ;;
               send_client response ;;;
               emit ClientClose
           | Some response_from_server =>
               forward_response response_from_server ;;;
               emit ClientClose
           end)
            (parsed (after w [CacheStat (lit "./cache/" ++ host ++ path url)])
               m v url)).
      { unfold answer_request. rewrite Hvalid. cbn [negb].
        unfold bind at 1.
        rewrite (parse_request_port request m u v rest url Hs Hu n w Hp).
        unfold bind at 1.
        rewrite (check_file_in_cache_parsed m v url host w Hh), Hmiss.
        reflexivity. }
      split; intros Hacc.
      * rewrite Hlook. unfold bind at 1.
        rewrite (send_request_to_server_connected m v url origin host n
                   (after w [CacheStat (lit "./cache/" ++ host ++ path url)])
                   Hn Hh Hp Hsock Hacc).
        unfold after, parsed. cbn [self files trace].
        rewrite <- !app_assoc. reflexivity.
      * split.
        { now rewrite (send_request_to_server_refused m v url origin host n w
                         Hh Hp Hsock Hacc). }
        rewrite Hlook. unfold bind at 1.
        rewrite (send_request_to_server_refused m v url origin host n _
                   Hh Hp Hsock Hacc).
        unfold bind, lift. cbn [create_500_response].
        rewrite (send_client_after _ _ _ encode_response500_fixed).
        rewrite emit_after, !after_after. unfold after, parsed.
        cbn [self files trace]. rewrite <- !app_assoc. reflexivity.
  - intros data.
    destruct (handle_request_stops_at_print data origin w) as (e & He & _).
    exists e. exact He.
Qed.

End OriginFetchAnswer.

(** The amended statement at [request_with_port], on a fresh server and
    an origin that accepts the connection. *)
Lemma origin_fetch_after_line_236_witness :
  url_parsed (self start) = None
  /\ check_request_validity request_with_port = true
  /\ answer_request (lib := plain_urls) origin_up request_with_port start
     = (after parsed_with_port
          [CacheStat (lit "./cache/example.com/a.txt");
           OriginConnect (lit "example.com") 8080],
        Raise AttributeError)
  /\ exists e,
       handle_request (lib := plain_urls) (Some (utf8 request_with_port))
         origin_up start
       = (start, Raise e).
Proof.
  split; [reflexivity|]. split; [reflexivity|].
  destruct (origin_fetch_after_line_236 (lib := plain_urls)
              origin_up request_with_port start eq_refl eq_refl)
    as (_ & Hfields & Hprint).
  split; [|exact (Hprint (utf8 request_with_port))].
  destruct (Hfields (lit "GET" ++ CRLF) (lit "http://example.com:8080/a.txt")
              (CRLF ++ lit "HTTP/1.0") [] url_with_port eq_refl eq_refl)
    as (_ & Hport).
  destruct (Hport 8080%Z (lit "example.com") eq_refl eq_refl eq_refl eq_refl)
    as (Hup & _).
  exact (Hup eq_refl).
Defined.

(** ** The cache hit *)

Section CacheHit.

Context {lib : Library}.

(** C7, amended.  [add_length_and_cache_to_header] raises [ValueError] on
    every text none of whose lines is empty.  A cached body that is not
    empty, neither starts nor ends with CRLF and has no two CRLF in a row
    is such a text, and on a hit the handler reads it, raises [ValueError]
    and sends nothing. *)
Theorem cached_body_without_blank_line_fails (w : world)
    (url : ParseResult) (host : pystr) (data : list byte) (body : pystr) :
  request_url_parsed (self w) = Some url ->
  hostname url = Some host ->
  FS.read (files w) (lit "./cache/" ++ host ++ path url) = Some data ->
  decode data = Some body ->
  lacks_blank_line body = true ->
  (forall response in_cache,
     ~ In [] (split CRLF response) ->
     add_length_and_cache_to_header response in_cache = Raise ValueError)
  /\ ~ In [] (split CRLF body)
  /\ serve_from_cache w
     = (after w [CacheRead (lit "./cache/" ++ host ++ path url)],
        Raise ValueError).
Proof.
  intros Hurl Hhost Hread Hdecode Hlacks.
  assert (Hraise : forall response in_cache,
             ~ In [] (split CRLF response) ->
             add_length_and_cache_to_header response in_cache
             = Raise ValueError).
  { intros response in_cache.
    apply add_length_and_cache_to_header_raises. }
  apply lacks_blank_line_iff in Hlacks.
  split; [exact Hraise|]. split; [exact Hlacks|].
  unfold serve_from_cache, get_response_from_cache, cache_path, open_rb_read.
  unfold attr. unfold bind, try_except, expect, lift, ret, emit, get_files.
  rewrite Hurl, Hhost. cbn [operand_of str_add files after].
  rewrite <- app_assoc, Hread, Hdecode, (Hraise body true Hlacks).
  reflexivity.
Qed.

End CacheHit.

(** The amended statement at the cached body [hello]. *)
Lemma cached_body_without_blank_line_fails_witness :
  request_url_parsed (self (with_entry (utf8 (lit "hello"))))
  = Some url_with_port
  /\ hostname (Library := plain_urls) url_with_port = Some (lit "example.com")
  /\ FS.read (files (with_entry (utf8 (lit "hello"))))
       (lit "./cache/" ++ lit "example.com" ++ path url_with_port)
     = Some (utf8 (lit "hello"))
  /\ decode (utf8 (lit "hello")) = Some (lit "hello")
  /\ lacks_blank_line (lit "hello") = true
  /\ serve_from_cache (lib := plain_urls) (with_entry (utf8 (lit "hello")))
     = (after (with_entry (utf8 (lit "hello")))
          [CacheRead (lit "./cache/" ++ lit "example.com"
                        ++ path url_with_port)],
        Raise ValueError).
Proof.
  repeat (split; [reflexivity|]).
  apply (cached_body_without_blank_line_fails (lib := plain_urls)
           (with_entry (utf8 (lit "hello"))) url_with_port
           (lit "example.com") (utf8 (lit "hello")) (lit "hello"));
    reflexivity.
Defined.

(** ** [url_parsed] is never assigned *)

Section NeverAssigned.

Context {lib : Library}.

Lemma keeps_ret (A : Type) (a : A) : keeps_unassigned (ret a).
Proof. intros w H. exact H. Qed.

Lemma keeps_raise (A : Type) (e : exn) : keeps_unassigned (@raise A e).
Proof. intros w H. exact H. Qed.

Lemma keeps_lift (A : Type) (r : result A) : keeps_unassigned (lift r).
Proof. intros w H. exact H. Qed.

Lemma keeps_expect (A : Type) (e : exn) (o : option A) :
  keeps_unassigned (expect e o).
Proof. intros w H. destruct o; exact H. Qed.

Lemma keeps_emit (e : event) : keeps_unassigned (emit e).
Proof. intros w H. exact H. Qed.

Lemma keeps_get_files : keeps_unassigned get_files.
Proof. intros w H. exact H. Qed.

Lemma keeps_set_files (t : FS.fs) : keeps_unassigned (set_files t).
Proof. intros w H. exact H. Qed.

Lemma keeps_attr (A : Type) (a : ProxyServer -> option A) :
  keeps_unassigned (attr a).
Proof. intros w H. unfold attr. destruct (a (self w)); exact H. Qed.

Lemma keeps_set_request_method (v : pystr) :
  keeps_unassigned (set_request_method v).
Proof. intros w H. exact H. Qed.

Lemma keeps_set_request_version (v : pystr) :
  keeps_unassigned (set_request_version v).
Proof. intros w H. exact H. Qed.

Lemma keeps_set_request_url_parsed (v : ParseResult) :
  keeps_unassigned (set_request_url_parsed v).
Proof. intros w H. exact H. Qed.

Lemma keeps_bind (A B : Type) (m : M A) (k : A -> M B) :
  keeps_unassigned m -> (forall a, keeps_unassigned (k a)) ->
  keeps_unassigned (bind m k).
Proof.
  intros Hm Hk w H. unfold bind. specialize (Hm w H).
  destruct (m w) as [w' [a|e]]; [apply Hk|]; exact Hm.
Qed.

Lemma keeps_try_except (A : Type) (m h : M A) :
  keeps_unassigned m -> keeps_unassigned h ->
  keeps_unassigned (try_except m h).
Proof.
  intros Hm Hh w H. unfold try_except. specialize (Hm w H).
  destruct (m w) as [w' [a|e]]; [|apply Hh]; exact Hm.
Qed.

(** What follows a read of [url_parsed] is not run. *)
Lemma keeps_after_url_parsed (B : Type) (k : ParseResult -> M B) :
  keeps_unassigned (bind (attr url_parsed) k).
Proof. intros w H. unfold bind, attr. red in H. rewrite H. exact H. Qed.

Ltac keep :=
  repeat first
    [ apply keeps_ret | apply keeps_raise | apply keeps_lift
    | apply keeps_expect | apply keeps_emit | apply keeps_get_files
    | apply keeps_set_files | apply keeps_attr
    | apply keeps_set_request_method | apply keeps_set_request_version
    | apply keeps_set_request_url_parsed
    | apply keeps_after_url_parsed
    | apply keeps_bind; [|intros ?]
    | apply keeps_try_except
    | match goal with
      | |- keeps_unassigned (if ?b then _ else _) => destruct b
      | |- keeps_unassigned (match ?o with _ => _ end) => destruct o
      end ].

Lemma keeps_parse_request (request : pystr) :
  keeps_unassigned (parse_request request).
Proof. unfold parse_request. keep. Qed.

Lemma keeps_cache_path : keeps_unassigned cache_path.
Proof. unfold cache_path. keep. Qed.

Lemma keeps_make_directories (pieces : list pystr) (p : pystr) :
  keeps_unassigned (make_directories pieces p).
Proof.
  revert p. induction pieces as [|piece rest IH]; intros p; simpl.
  - keep.
  - unfold path_is_dir, path_mkdir. keep. apply IH.
Qed.

Lemma keeps_write_lines (p : pystr) (lines : list pystr) :
  keeps_unassigned (write_lines p lines).
Proof.
  induction lines as [|line rest IH]; simpl.
  - keep.
  - unfold file_write. keep. exact IH.
Qed.

Lemma keeps_store_response_in_cache (response : pystr) :
  keeps_unassigned (store_response_in_cache response).
Proof.
  unfold store_response_in_cache.
  apply keeps_bind; [apply keeps_cache_path|intros p].
  apply keeps_bind; [apply keeps_make_directories|intros dir].
  apply keeps_bind; [keep|intros k].
  apply keeps_try_except; [|unfold sys_exit; keep].
  apply keeps_bind; [unfold open_wb; keep|intros _].
  apply keeps_write_lines.
Qed.

Lemma keeps_send_client (response : pystr) :
  keeps_unassigned (send_client response).
Proof. unfold send_client. keep. Qed.

Lemma keeps_forward_response (response : pystr) :
  keeps_unassigned (forward_response response).
Proof.
  intros w H. rewrite forward_response_always_500. revert w H.
  change (keeps_unassigned
            (status_code <- lift (get_status_code response) ;;
             text <- lift (create_500_response (Some response)) ;;
             send_client text)).
  apply keeps_bind; [keep|intros _].
  apply keeps_bind; [keep|intros text]. apply keeps_send_client.
Qed.

Lemma keeps_serve_from_cache : keeps_unassigned serve_from_cache.
Proof.
  unfold serve_from_cache, get_response_from_cache.
  apply keeps_bind.
  - apply keeps_bind; [apply keeps_cache_path|intros p].
    unfold open_rb_read, sys_exit. keep.
  - intros cached. apply keeps_bind; [keep|intros text].
    apply keeps_send_client.
Qed.

Lemma keeps_send_request_to_server (origin : origin_server) :
  keeps_unassigned (send_request_to_server origin).
Proof. unfold send_request_to_server, create_socket, sys_exit. keep. Qed.

Lemma keeps_answer_request (origin : origin_server) (request : pystr) :
  keeps_unassigned (answer_request origin request).
Proof.
  unfold answer_request.
  destruct (negb (check_request_validity request)).
  - apply keeps_bind; [keep|intros text].
    apply keeps_bind; [apply keeps_send_client|intros _]. keep.
  - apply keeps_bind; [apply keeps_parse_request|intros _].
    apply keeps_bind;
      [unfold check_file_in_cache, path_is_file;
       apply keeps_bind; [apply keeps_cache_path|intros p]; keep|].
    intros [|].
    + apply keeps_bind; [apply keeps_serve_from_cache|intros _]. keep.
    + apply keeps_bind; [apply keeps_send_request_to_server|].
      intros [response|].
      * apply keeps_bind; [apply keeps_forward_response|intros _]. keep.
      * apply keeps_bind; [keep|intros text].
        apply keeps_bind; [apply keeps_send_client|intros _]. keep.
Qed.

(** No connection assigns [url_parsed]: it is unassigned after
    [__init__], and the handler leaves it unassigned. *)
Lemma url_parsed_never_assigned (received : option (list byte))
    (origin : origin_server) :
  (forall (p : Z) (w : world), unassigned (fst (init p w)))
  /\ keeps_unassigned (handle_request received origin)
  /\ keeps_unassigned (accept_connection_once received origin).
Proof.
  assert (Hh : keeps_unassigned (handle_request received origin)).
  { unfold handle_request. destruct received as [data|]; [|keep].
    apply keeps_bind; [keep|intros request].
    apply keeps_bind; [keep|intros encoded].
    apply keeps_bind; [keep|intros _]. apply keeps_answer_request. }
  split; [|split; [exact Hh|]].
  - intros p w. unfold init, path_is_dir. unfold bind, set_self, emit.
    cbn [self files trace]. unfold get_files, ret. cbn [self files trace].
    destruct (negb _); [|reflexivity].
    cbn [self files trace].
    destruct (FS.stat _ _); reflexivity.
  - intros w H. unfold accept_connection_once. specialize (Hh w H).
    destruct (handle_request received origin w) as [w' [[]|e]];
      [exact Hh|]. destruct (is_socket_error e); exact Hh.
Qed.

End NeverAssigned.

(** ** What the validator accepts *)

Section Validator.

(** The requests [check_request_validity] accepts: three lines at CRLF,
    the first of which is [GET] once stripped, the second contains
    [http://], and the third is one of the three versions. *)
Lemma check_request_validity_iff (request : pystr) :
  check_request_validity request = true <->
  exists l1 l2 l3,
    split CRLF request = [l1; l2; l3]
    /\ strip l1 = lit "GET"
    /\ contains (lit "http://") (strip l2) = true
    /\ (strip l3 = lit "HTTP/1.1" \/ strip l3 = lit "HTTP/1.0"
        \/ strip l3 = lit "HTTP/0.9").
Proof.
  unfold check_request_validity.
  destruct (split CRLF request) as [|l1 [|l2 [|l3 [|l4 rest]]]];
    cbn [length Nat.eqb negb nth];
    try (split; [discriminate|intros (a & b & c & H & _); discriminate]).
  destruct (Str.eqb (strip l1) (lit "GET")) eqn:E1; cbn [negb].
  - apply eqb_eq in E1.
    destruct (Str.eqb (strip l3) (lit "HTTP/1.1")) eqn:V1;
      [|destruct (Str.eqb (strip l3) (lit "HTTP/1.0")) eqn:V2;
        [|destruct (Str.eqb (strip l3) (lit "HTTP/0.9")) eqn:V3]].
    1-3: match goal with
         | H : Str.eqb (strip _) _ = true |- _ =>
             apply eqb_eq in H; rewrite H
         end;
         change (negb (Str.eqb (slice_to 5 _) (lit "HTTP/"))) with false;
         cbv iota; cbn [negb andb];
         (destruct (contains (lit "http://") (strip l2)) eqn:E2; cbn [negb];
          [split; [intros _; exists l1, l2, l3; repeat split; auto|reflexivity]
          |split; [discriminate|];
           intros (a & b & c & [= <- <- <-] & _ & Hc & _); congruence]).
    apply eqb_neq in V1, V2, V3.
    destruct (negb (Str.eqb (slice_to 5 (strip l3)) (lit "HTTP/")));
      cbn [negb andb];
      (split; [discriminate|]);
      intros (a & b & c & [= <- <- <-] & _ & _ & [H|[H|H]]); congruence.
  - apply eqb_neq in E1. split; [discriminate|].
    intros (a & b & c & [= <- <- <-] & H & _). congruence.
Qed.

End Validator.

(** ** Leaving the process *)

Section Exits.

Context {lib : Library}.

(** With fewer than two words on the command line the process leaves
    through [sys.exit()]. *)
Lemma get_port_num_without_argument (argv : list pystr) :
  length argv < 2 -> get_port_num argv = Raise (SystemExit None).
Proof.
  intros H. unfold get_port_num.
  destruct (Nat.ltb_spec (length argv) 2); [reflexivity|lia].
Qed.

(** A block under [except: sys.exit()] that raises leaves the process
    with [SystemExit] and no code. *)
Lemma except_exit (A : Type) (m : M A) (w w' : world) (e : exn) :
  m w = (w', Raise e) ->
  try_except m (sys_exit None) w = (w', Raise (SystemExit None)).
Proof. intros H. unfold try_except. now rewrite H. Qed.

(** A cache entry that cannot be read or decoded ends the process that
    way. *)
Lemma cache_read_failure_exits (w : world) (url : ParseResult)
    (host : pystr) :
  request_url_parsed (self w) = Some url ->
  hostname url = Some host ->
  (FS.read (files w) (lit "./cache/" ++ host ++ path url) = None
   \/ exists data,
        FS.read (files w) (lit "./cache/" ++ host ++ path url) = Some data
        /\ decode data = None) ->
  snd (get_response_from_cache w) = Raise (SystemExit None).
Proof.
  intros Hurl Hhost Hfail.
  unfold get_response_from_cache, cache_path, open_rb_read, attr.
  unfold bind, try_except, expect, lift, ret, emit, get_files.
  rewrite Hurl, Hhost. cbn [operand_of str_add files after].
  rewrite <- app_assoc.
  destruct Hfail as [Hr|(data & Hr & Hd)]; rewrite Hr; [reflexivity|].
  now rewrite Hd.
Qed.

End Exits.

(** * Further properties *)

(** ** Splitting a text made of lines *)

Section SplitLines.

Lemma contains_false_cons (p : pystr) (c : N) (s : pystr) :
  contains p (c :: s) = false ->
  starts_with p (c :: s) = false /\ contains p s = false.
Proof. rewrite contains_cons. apply orb_false_iff. Qed.

Lemma starts_crlf_before (c : N) (l s : pystr) :
  starts_with CRLF (c :: l) = false ->
  starts_with CRLF (c :: l ++ CRLF ++ s) = false.
Proof.
  destruct l as [|d l]; [|trivial]. intros _. simpl.
  now rewrite andb_false_r.
Qed.

(** A line with no CRLF in front of a CRLF is the first piece. *)
Lemma split_crlf_line (l s : pystr) :
  contains CRLF l = false ->
  split CRLF (l ++ CRLF ++ s) = l :: split CRLF s.
Proof.
  induction l as [|c l IH]; intros H.
  - apply split_crlf_sep.
  - apply contains_false_cons in H. destruct H as [Hs Hc].
    change ((c :: l) ++ CRLF ++ s) with (c :: l ++ CRLF ++ s).
    rewrite split_crlf_char by now apply starts_crlf_before.
    now rewrite IH.
Qed.

Lemma split_crlf_single (l : pystr) :
  contains CRLF l = false -> split CRLF l = [l].
Proof.
  induction l as [|c l IH]; intros H; [reflexivity|].
  apply contains_false_cons in H. destruct H as [Hs Hc].
  rewrite split_crlf_char by assumption. now rewrite IH.
Qed.

Lemma header_line_inv (l : pystr) :
  header_line l = true -> l <> [] /\ contains CRLF l = false.
Proof.
  unfold header_line. rewrite andb_true_iff, !negb_true_iff.
  intros [H1 H2]. split; [now apply eqb_neq|exact H2].
Qed.

(** The lines of a rendered response. *)
Lemma split_crlf_render (headers : list pystr) (body : pystr) :
  forallb header_line headers = true ->
  split CRLF (render headers body) = headers ++ [] :: split CRLF body.
Proof.
  unfold render. induction headers as [|h hs IH]; intros H.
  - apply split_crlf_sep.
  - simpl in H. apply andb_true_iff in H. destruct H as [Hh Hhs].
    apply header_line_inv in Hh. destruct Hh as [_ Hh].
    cbn [map concat]. rewrite <- !app_assoc.
    rewrite split_crlf_line by exact Hh.
    now rewrite IH.
Qed.

Lemma index_after (x : pystr) (h b : list pystr) :
  ~ In x h -> index x (h ++ x :: b) = Some (length h).
Proof.
  induction h as [|y h IH]; intros Hn; simpl.
  - now rewrite eqb_refl.
  - destruct (Str.eqb y x) eqn:E.
    + apply eqb_eq in E. exfalso. apply Hn. now left.
    + rewrite IH; [reflexivity|]. intros Hin. apply Hn. now right.
Qed.

Lemma header_lines_not_empty (headers : list pystr) :
  forallb header_line headers = true -> ~ In [] headers.
Proof.
  intros H Hin. rewrite forallb_forall in H. specialize (H _ Hin).
  discriminate.
Qed.

(** The transformer on a rendered response. *)
Lemma normalize_render (headers : list pystr) (body : pystr)
    (in_cache : bool) :
  forallb header_line headers = true ->
  add_length_and_cache_to_header (render headers body) in_cache
  = Ret (render
           (headers
              ++ content_length_lines headers (split CRLF body)
              ++ connection_lines headers
              ++ [cache_hit_line in_cache])
           (concat (split CRLF body))).
Proof.
  intros H. unfold add_length_and_cache_to_header.
  rewrite split_crlf_render by exact H.
  rewrite index_after by now apply header_lines_not_empty.
  now rewrite normalize_shape.
Qed.

End SplitLines.

(** ** The transformer on well-formed responses *)

Section WellFormed.

Lemma header_line_content_length (n : nat) :
  header_line (lit "Content-Length: " ++ of_nat n) = true.
Proof.
  unfold header_line. apply andb_true_iff. split; [reflexivity|].
  apply negb_true_iff. unfold of_nat.
  pose proof (digit_chars (Nat.to_uint n)) as Hd. revert Hd.
  generalize (lit (NilEmpty.string_of_uint (Nat.to_uint n))).
  intros d Hd. cbn. apply contains_first_absent.
  eapply Forall_impl; [|exact Hd]. cbv beta. intros c Hc. lia.
Qed.

Lemma added_lines_are_header_lines (headers body_lines : list pystr)
    (in_cache : bool) :
  forallb header_line headers = true ->
  forallb header_line
    (headers ++ content_length_lines headers body_lines
       ++ connection_lines headers ++ [cache_hit_line in_cache]) = true.
Proof.
  intros H. rewrite !forallb_app, H. cbn [andb].
  unfold content_length_lines, connection_lines.
  destruct (any_contains (lit "Content-Length") headers);
    destruct (any_contains (lit "Connection: close") headers);
    destruct in_cache; cbn [forallb andb];
    rewrite ?header_line_content_length; reflexivity.
Qed.

Lemma content_length_present (headers body_lines rest : list pystr) :
  any_contains (lit "Content-Length")
    (headers ++ content_length_lines headers body_lines ++ rest) = true.
Proof.
  rewrite !any_contains_app. unfold content_length_lines.
  destruct (any_contains (lit "Content-Length") headers) eqn:E;
    [reflexivity|].
  cbn [any_contains existsb orb].
  change (lit "Content-Length: ") with (lit "Content-Length" ++ lit ": ").
  rewrite <- app_assoc, (contains_starts _ _ (starts_with_app _ _)).
  reflexivity.
Qed.

Lemma connection_present (headers mid rest : list pystr) :
  any_contains (lit "Connection: close")
    (headers ++ mid ++ connection_lines headers ++ rest) = true.
Proof.
  rewrite !any_contains_app. unfold connection_lines.
  destruct (any_contains (lit "Connection: close") headers) eqn:E;
    [reflexivity|].
  cbn [any_contains existsb]. rewrite contains_refl.
  now rewrite !orb_true_r.
Qed.

(** The transformer on a response given as header lines and a body: the
    header lines are kept in their order, a Content-Length line is added
    unless one of them contains that text, then a Connection line unless
    one of them contains it, then the Cache-Hit line; the body is sent
    with every CRLF taken out, and unchanged when it has none. *)
Theorem well_formed_response_is_normalized (headers : list pystr)
    (body : pystr) (in_cache : bool) :
  forallb header_line headers = true ->
  add_length_and_cache_to_header (render headers body) in_cache
  = Ret (render
           (headers
              ++ content_length_lines headers (split CRLF body)
              ++ connection_lines headers
              ++ [cache_hit_line in_cache])
           (concat (split CRLF body)))
  /\ total_length (split CRLF body) = length (concat (split CRLF body))
  /\ (contains CRLF body = false -> concat (split CRLF body) = body).
Proof.
  intros H. split; [now apply normalize_render|].
  split; [apply total_length_concat|].
  intros Hb. rewrite split_crlf_single by exact Hb. apply app_nil_r.
Qed.

Lemma well_formed_response_is_normalized_witness :
  forallb header_line [lit "HTTP/1.0 200 OK"; lit "Server: x"] = true
  /\ add_length_and_cache_to_header
       (render [lit "HTTP/1.0 200 OK"; lit "Server: x"] (lit "hello")) true
     = Ret (render
              [lit "HTTP/1.0 200 OK"; lit "Server: x";
               lit "Content-Length: 5"; lit "Connection: close";
               lit "Cache-Hit: 1"]
              (lit "hello")).
Proof.
  split; [reflexivity|].
  exact (proj1 (well_formed_response_is_normalized
                  [lit "HTTP/1.0 200 OK"; lit "Server: x"] (lit "hello")
                  true eq_refl)).
Defined.

(** A response that went through the transformer goes through it again
    without an error: the second pass adds one more Cache-Hit line and
    nothing else to the header, and takes out the CRLF the first pass may
    have formed in the body. *)
Theorem normalizing_twice (headers : list pystr) (body : pystr)
    (first second : bool) :
  forallb header_line headers = true ->
  exists once,
    add_length_and_cache_to_header (render headers body) first = Ret once
    /\ add_length_and_cache_to_header once second
       = Ret (render
                (headers
                   ++ content_length_lines headers (split CRLF body)
                   ++ connection_lines headers
                   ++ [cache_hit_line first; cache_hit_line second])
                (concat (split CRLF (concat (split CRLF body))))).
Proof.
  intros H. eexists. split; [now apply normalize_render|].
  rewrite normalize_render
    by now apply added_lines_are_header_lines.
  unfold content_length_lines at 2. rewrite content_length_present.
  unfold connection_lines at 2. rewrite connection_present.
  cbn [app]. now rewrite <- !app_assoc.
Qed.

Lemma normalizing_twice_witness :
  forallb header_line [lit "HTTP/1.0 200 OK"] = true
  /\ exists once,
       add_length_and_cache_to_header
         (render [lit "HTTP/1.0 200 OK"] (lit "hello")) false = Ret once
       /\ add_length_and_cache_to_header once true
          = Ret (render
                   ([lit "HTTP/1.0 200 OK"]
                      ++ content_length_lines [lit "HTTP/1.0 200 OK"]
                           (split CRLF (lit "hello"))
                      ++ connection_lines [lit "HTTP/1.0 200 OK"]
                      ++ [cache_hit_line false; cache_hit_line true])
                   (concat (split CRLF (concat (split CRLF (lit "hello")))))).
Proof.
  split; [reflexivity|].
  apply (normalizing_twice [lit "HTTP/1.0 200 OK"] (lit "hello") false true).
  reflexivity.
Defined.

End WellFormed.

(** ** The synthesized 500 *)

Section Synthesized500.

Lemma total_length_blank (l : list pystr) :
  total_length ([] :: l) = total_length l.
Proof. reflexivity. Qed.

Lemma reconstruct_render (h b : list pystr) :
  reconstruct (h ++ [] :: b, length h) = render h (CRLF ++ concat b).
Proof.
  unfold reconstruct, render.
  rewrite firstn_exact_succ, skipn_exact_succ, map_app, concat_app.
  cbn [map concat]. now rewrite app_nil_r, <- !app_assoc.
Qed.

Lemma index_first_replaced (x : pystr) (l : list pystr) :
  index [] (status_500 :: l) = option_map S (index [] l).
Proof. reflexivity. Qed.

(** The text rebuilt on lines 392-401 always has an empty line. *)
Lemma reconstruct_has_blank_line (h b : list pystr) :
  In [] (split CRLF (reconstruct (h ++ [] :: b, length h))).
Proof.
  rewrite reconstruct_render. unfold render.
  apply in_tl, blank_line_between.
  rewrite (app_assoc CRLF CRLF). apply contains_app.
Qed.

Lemma create_500_response_render (status : pystr)
    (headers : list pystr) (body : pystr) :
  contains CRLF status = false ->
  forallb header_line headers = true ->
  create_500_response (Some (render (status :: headers) body))
  = Ret (render
           ((status_500 :: headers)
              ++ content_length_lines (status_500 :: headers)
                   (split CRLF (concat (split CRLF body)))
              ++ connection_lines (status_500 :: headers)
              ++ [lit "Cache-Hit: 0"])
           (concat (split CRLF (concat (split CRLF body))))).
Proof.
  intros Hs Hh. unfold create_500_response.
  assert (Hsplit : split CRLF (render (status :: headers) body)
                   = status :: headers ++ [] :: split CRLF body).
  { unfold render. cbn [map concat]. rewrite <- !app_assoc.
    rewrite split_crlf_line by exact Hs.
    f_equal. now apply split_crlf_render. }
  rewrite Hsplit. cbn [setitem].
  change (status_500 :: headers ++ [] :: split CRLF body)
    with ((status_500 :: headers) ++ [] :: split CRLF body).
  assert (H500 : forallb header_line (status_500 :: headers) = true).
  { cbn [forallb]. rewrite Hh. reflexivity. }
  rewrite index_after by now apply header_lines_not_empty.
  rewrite reconstruct_render, normalize_render by exact H500.
  change (split CRLF (CRLF ++ concat (split CRLF body)))
    with ([] :: split CRLF (concat (split CRLF body))).
  unfold content_length_lines. now rewrite total_length_blank.
Qed.

(** [create_500_response] on a response given as a status line, header
    lines and a body: the status line is replaced, the header lines are
    kept, the lines of the transformer are added with [Cache-Hit: 0], and
    the body is sent with its CRLF taken out. *)
Theorem create_500_response_keeps_headers (status : pystr)
    (headers : list pystr) (body : pystr) :
  contains CRLF status = false ->
  forallb header_line headers = true ->
  create_500_response (Some (render (status :: headers) body))
  = Ret (render
           ((status_500 :: headers)
              ++ content_length_lines (status_500 :: headers)
                   (split CRLF (concat (split CRLF body)))
              ++ connection_lines (status_500 :: headers)
              ++ [lit "Cache-Hit: 0"])
           (concat (split CRLF (concat (split CRLF body))))).
Proof. exact (create_500_response_render status headers body). Qed.

Lemma create_500_response_keeps_headers_witness :
  contains CRLF (lit "HTTP/1.0 503 Service Unavailable") = false
  /\ forallb header_line [lit "Retry-After: 120"] = true
  /\ create_500_response
       (Some (render [lit "HTTP/1.0 503 Service Unavailable";
                      lit "Retry-After: 120"] (lit "busy")))
     = Ret (render
              [status_500; lit "Retry-After: 120"; lit "Content-Length: 4";
               lit "Connection: close"; lit "Cache-Hit: 0"]
              (lit "busy")).
Proof.
  split; [reflexivity|]. split; [reflexivity|].
  exact (create_500_response_keeps_headers
           (lit "HTTP/1.0 503 Service Unavailable")
           [lit "Retry-After: 120"] (lit "busy") eq_refl eq_refl).
Defined.

(** [create_500_response] returns a text whenever a line after the first
    is empty, and raises [ValueError] otherwise: an empty first line does
    not count, being replaced by the status line. *)
Theorem create_500_response_needs_blank_line (response : pystr) :
  (In [] (tl (split CRLF response)) ->
   exists text, create_500_response (Some response) = Ret text)
  /\ (~ In [] (tl (split CRLF response)) ->
      create_500_response (Some response) = Raise ValueError).
Proof.
  unfold create_500_response.
  pose proof (split_crlf_not_nil response) as Hne.
  destruct (split CRLF response) as [|first rest]; [congruence|].
  cbn [setitem tl]. rewrite (index_first_replaced first).
  destruct (index [] rest) as [k|] eqn:Hk; cbn [option_map].
  - split; [intros _|].
    + destruct (index_shape _ _ _ Hk) as (Hl & Hlen & _).
      assert (Hb : In [] (split CRLF (reconstruct (status_500 :: rest, S k)))).
      { replace (status_500 :: rest)
          with ((status_500 :: firstn k rest) ++ [] :: skipn (k + 1) rest)
          by (cbn [app]; f_equal; symmetry; exact Hl).
        replace (S k) with (length (status_500 :: firstn k rest))
          by (cbn [length]; now rewrite Hlen).
        apply reconstruct_has_blank_line. }
      destruct (add_length_and_cache_to_header
                  (reconstruct (status_500 :: rest, S k)) false)
        as [text|e] eqn:E; [now exists text|].
      exfalso. unfold add_length_and_cache_to_header in E.
      apply index_none in Hb; [exact Hb|].
      destruct (index [] (split CRLF (reconstruct (status_500 :: rest, S k))));
        [discriminate|reflexivity].
    + intros Hno. apply index_none in Hno. congruence.
  - split; [|reflexivity]. intros Hin. apply index_none in Hk. contradiction.
Qed.

End Synthesized500.

(** ** Splitting at one character *)

Section SplitChar.

Variable d : N.

Lemma split_char_sep (r : pystr) : split [d] (d :: r) = [] :: split [d] r.
Proof.
  unfold split. cbn [split_go starts_with length Nat.sub].
  now rewrite N.eqb_refl.
Qed.

Lemma split_char_other (c : N) (r : pystr) :
  c <> d -> split [d] (c :: r) = cons_head c (split [d] r).
Proof.
  intros H. unfold split. cbn [split_go starts_with].
  destruct (N.eqb_spec d c); [congruence|reflexivity].
Qed.

Lemma split_char_not_nil (s : pystr) : split [d] s <> [].
Proof.
  induction s as [|c s IH]; [discriminate|].
  destruct (N.eq_dec c d) as [->|Hc].
  - rewrite split_char_sep. discriminate.
  - rewrite split_char_other by exact Hc.
    destruct (split [d] s); discriminate.
Qed.

Lemma lacks_char_cons (c : N) (l : pystr) :
  lacks_char d (c :: l) = true -> c <> d /\ lacks_char d l = true.
Proof.
  unfold lacks_char. cbn [forallb]. rewrite andb_true_iff, negb_true_iff.
  intros [H1 H2]. split; [now apply N.eqb_neq|exact H2].
Qed.

(** A field with no separator in front of a separator is the first
    piece. *)
Lemma split_char_field (l s : pystr) :
  lacks_char d l = true -> split [d] (l ++ d :: s) = l :: split [d] s.
Proof.
  induction l as [|c l IH]; intros H.
  - apply split_char_sep.
  - apply lacks_char_cons in H. destruct H as [Hc Hl].
    change ((c :: l) ++ d :: s) with (c :: l ++ d :: s).
    rewrite split_char_other by exact Hc. now rewrite IH.
Qed.

Lemma split_char_single (l : pystr) :
  lacks_char d l = true -> split [d] l = [l].
Proof.
  induction l as [|c l IH]; intros H; [reflexivity|].
  apply lacks_char_cons in H. destruct H as [Hc Hl].
  rewrite split_char_other by exact Hc. now rewrite IH.
Qed.

(** A text with the separator in it is cut before its first one. *)
Lemma first_separator (s : pystr) :
  lacks_char d s = false ->
  exists a b, s = a ++ d :: b /\ lacks_char d a = true.
Proof.
  induction s as [|c s IH]; intros H; [discriminate|].
  destruct (N.eq_dec c d) as [->|Hc].
  - now exists [], s.
  - unfold lacks_char in H. cbn [forallb] in H.
    apply N.eqb_neq in Hc. rewrite Hc in H. cbn [negb andb] in H.
    destruct (IH H) as (a & b & -> & Ha). exists (c :: a), b.
    split; [reflexivity|]. unfold lacks_char. cbn [forallb].
    now rewrite Hc.
Qed.

Lemma join_split_char (s : pystr) : join [d] (split [d] s) = s.
Proof.
  induction s as [|c s IH]; [reflexivity|].
  destruct (N.eq_dec c d) as [->|Hc].
  - rewrite split_char_sep, join_cons by apply split_char_not_nil.
    now rewrite IH.
  - rewrite split_char_other by exact Hc.
    rewrite join_cons_head by apply split_char_not_nil. now rewrite IH.
Qed.

End SplitChar.

(** ** The status code *)

Section StatusCode.

(** [get_status_code] raises [IndexError] when the first line of the
    response has no space, and returns a text otherwise. *)
Theorem get_status_code_needs_space (response : pystr) :
  (lacks_char 32 (hd [] (split CRLF response)) = true ->
   get_status_code response = Raise IndexError)
  /\ (lacks_char 32 (hd [] (split CRLF response)) = false ->
      exists status_code, get_status_code response = Ret status_code).
Proof.
  unfold get_status_code.
  pose proof (split_crlf_not_nil response) as Hne.
  destruct (split CRLF response) as [|line rest]; [congruence|].
  cbn [getitem nth_error hd]. change (lit " ") with [32%N]. split.
  - intros H. now rewrite split_char_single.
  - intros H. destruct (first_separator 32 _ H) as (a & b & -> & Ha).
    rewrite split_char_field by exact Ha.
    pose proof (split_char_not_nil 32 b) as Hb.
    destruct (split [32%N] b) as [|code more]; [congruence|].
    now exists code.
Qed.

(** On a status line made of a version, a code and a reason, it returns
    the code, as a text. *)
Theorem get_status_code_of_status_line (version code reason rest : pystr) :
  lacks_char 32 version = true ->
  lacks_char 32 code = true ->
  contains CRLF (version ++ lit " " ++ code ++ lit " " ++ reason) = false ->
  get_status_code
    ((version ++ lit " " ++ code ++ lit " " ++ reason) ++ CRLF ++ rest)
  = Ret code.
Proof.
  intros Hv Hc Hline. unfold get_status_code.
  rewrite split_crlf_line by exact Hline.
  cbn [getitem nth_error]. change (lit " ") with [32%N].
  cbn [app]. rewrite split_char_field by exact Hv.
  now rewrite split_char_field by exact Hc.
Qed.

Lemma get_status_code_of_status_line_witness :
  lacks_char 32 (lit "HTTP/1.0") = true
  /\ lacks_char 32 (lit "404") = true
  /\ contains CRLF (lit "HTTP/1.0" ++ lit " " ++ lit "404" ++ lit " "
                      ++ lit "Not Found") = false
  /\ get_status_code
       ((lit "HTTP/1.0" ++ lit " " ++ lit "404" ++ lit " "
           ++ lit "Not Found") ++ CRLF ++ CRLF ++ lit "gone")
     = Ret (lit "404").
Proof.
  repeat (split; [reflexivity|]).
  exact (get_status_code_of_status_line (lit "HTTP/1.0") (lit "404")
           (lit "Not Found") (CRLF ++ lit "gone") eq_refl eq_refl eq_refl).
Defined.

End StatusCode.

(** ** The handler leaves the cache alone *)

Section NoCacheWrite.

Context {lib : Library}.

Lemma files_ret (A : Type) (a : A) : keeps_files (ret a).
Proof. intros w. reflexivity. Qed.

Lemma files_raise (A : Type) (e : exn) : keeps_files (@raise A e).
Proof. intros w. reflexivity. Qed.

Lemma files_lift (A : Type) (r : result A) : keeps_files (lift r).
Proof. intros w. reflexivity. Qed.

Lemma files_expect (A : Type) (e : exn) (o : option A) :
  keeps_files (expect e o).
Proof. intros w. destruct o; reflexivity. Qed.

Lemma files_emit (e : event) : keeps_files (emit e).
Proof. intros w. reflexivity. Qed.

Lemma files_get_files : keeps_files get_files.
Proof. intros w. reflexivity. Qed.

Lemma files_attr (A : Type) (a : ProxyServer -> option A) :
  keeps_files (attr a).
Proof. intros w. unfold attr. destruct (a (self w)); reflexivity. Qed.

Lemma files_set_self (f : ProxyServer -> ProxyServer) :
  keeps_files (set_self f).
Proof. intros w. reflexivity. Qed.

Lemma files_bind (A B : Type) (m : M A) (k : A -> M B) :
  keeps_files m -> (forall a, keeps_files (k a)) -> keeps_files (bind m k).
Proof.
  intros Hm Hk w. unfold bind. specialize (Hm w).
  destruct (m w) as [w' [a|e]]; [|exact Hm].
  cbn [fst] in Hm. rewrite <- Hm. apply Hk.
Qed.

Lemma files_try_except (A : Type) (m h : M A) :
  keeps_files m -> keeps_files h -> keeps_files (try_except m h).
Proof.
  intros Hm Hh w. unfold try_except. specialize (Hm w).
  destruct (m w) as [w' [a|e]]; [exact Hm|].
  cbn [fst] in Hm. rewrite <- Hm. apply Hh.
Qed.

Ltac files :=
  repeat first
    [ apply files_ret | apply files_raise | apply files_lift
    | apply files_expect | apply files_emit | apply files_get_files
    | apply files_attr | apply files_set_self
    | apply files_bind; [|intros ?]
    | apply files_try_except
    | match goal with
      | |- keeps_files (if ?b then _ else _) => destruct b
      | |- keeps_files (match ?o with _ => _ end) => destruct o
      end ].

Lemma files_parse_request (request : pystr) :
  keeps_files (parse_request request).
Proof.
  unfold parse_request, set_request_method, set_request_version,
    set_request_url_parsed, set_url_parsed.
  files.
Qed.

Lemma files_send_client (response : pystr) :
  keeps_files (send_client response).
Proof. unfold send_client. files. Qed.

Lemma files_forward_response (response : pystr) :
  keeps_files (forward_response response).
Proof.
  intros w. rewrite forward_response_always_500. revert w.
  change (keeps_files
            (status_code <- lift (get_status_code response) ;;
             text <- lift (create_500_response (Some response)) ;;
             send_client text)).
  apply files_bind; [files|intros _].
  apply files_bind; [files|intros text]. apply files_send_client.
Qed.

Lemma files_answer_request (origin : origin_server) (request : pystr) :
  keeps_files (answer_request origin request).
Proof.
  unfold answer_request.
  destruct (negb (check_request_validity request)).
  - apply files_bind; [files|intros text].
    apply files_bind; [apply files_send_client|intros _]. files.
  - apply files_bind; [apply files_parse_request|intros _].
    apply files_bind;
      [unfold check_file_in_cache, cache_path, path_is_file; files|].
    intros [|].
    + apply files_bind; [|intros _; files].
      unfold serve_from_cache, get_response_from_cache, cache_path,
        open_rb_read, sys_exit.
      apply files_bind; [files|intros cached].
      apply files_bind; [files|intros text]. apply files_send_client.
    + apply files_bind;
        [unfold send_request_to_server, create_socket, sys_exit; files|].
      intros [response|].
      * apply files_bind; [apply files_forward_response|intros _]. files.
      * apply files_bind; [files|intros text].
        apply files_bind; [apply files_send_client|intros _]. files.
Qed.

(** Whatever the request and whatever the origin answers, answering a
    request creates, changes and removes no file: nothing is ever put in
    the cache. *)
Theorem answering_never_changes_the_cache (origin : origin_server)
    (request : pystr) (received : option (list byte)) (w : world) :
  files (fst (answer_request origin request w)) = files w
  /\ files (fst (handle_request received origin w)) = files w
  /\ files (fst (accept_connection_once received origin w)) = files w.
Proof.
  split; [apply files_answer_request|].
  assert (Hh : files (fst (handle_request received origin w)) = files w).
  { revert w.
    change (keeps_files (handle_request received origin)).
    unfold handle_request. destruct received as [data|]; [|files].
    apply files_bind; [files|intros text].
    apply files_bind; [files|intros encoded].
    apply files_bind; [files|intros _]. apply files_answer_request. }
  split; [exact Hh|].
  unfold accept_connection_once.
  destruct (handle_request received origin w) as [w' [[]|e]];
    [exact Hh|]. destruct (is_socket_error e); exact Hh.
Qed.

End NoCacheWrite.


(** ** What the handler never does *)

Section NeverDone.

Context {lib : Library}.

Ltac run :=
  unfold attr, sys_exit, set_request_method, set_request_version,
    set_request_url_parsed, set_url_parsed;
  unfold bind, expect, getitem, lift, ret, raise, emit, get_files,
    set_files, set_self, try_except;
  cbn [nth_error self files trace request_url_parsed request_method
         request_version url_parsed port_num parsed negb].

(** The connection attempt of lines 533-537 gives a truth value, changes
    no attribute and at most records the connection. *)
Lemma connection_attempt (origin : origin_server) (w : world) :
  exists connected events,
    try_except
      (url <- attr request_url_parsed ;;
       p <- lift (port url) ;;
       h <- expect TypeError (hostname url) ;;
       n <- expect TypeError p ;;
       emit (OriginConnect h n) ;;;
       if accepts_connection origin then ret true else raise OSError)
      (ret false) w
    = (after w events, Ret connected)
    /\ forallb (fun e => negb (is_origin_send e)) events = true.
Proof.
  run. destruct (request_url_parsed (self w)) as [url|];
    [|exists false, []; now rewrite after_nil].
  destruct (port url) as [[n|]|e]; destruct (hostname url) as [h|];
    try (exists false, []; now rewrite after_nil).
  cbn [self files trace].
  destruct (accepts_connection origin);
    [exists true|exists false]; exists [OriginConnect h n]; now split.
Qed.

(** As [url_parsed] is never assigned, [send_request_to_server] never
    returns a response and never sends a request to the origin: it
    returns [None] or raises. *)
Theorem send_request_to_server_never_fetches (origin : origin_server)
    (w : world) :
  unassigned w ->
  exists w' r events,
    send_request_to_server origin w = (w', r)
    /\ trace w' = trace w ++ events
    /\ forallb (fun e => negb (is_origin_send e)) events = true
    /\ (r = Ret None \/ exists e, r = Raise e).
Proof.
  intros Hn. unfold send_request_to_server, create_socket.
  destruct (socket_created origin).
  - unfold bind at 1. unfold ret at 1. unfold bind at 1.
    destruct (connection_attempt origin w) as (connected & events & -> & Hev).
    destruct connected; cbn [negb].
    + exists (after w events), (Raise AttributeError), events.
      split; [|split; [reflexivity|split; [exact Hev|right; eauto]]].
      unfold after. run. destruct (request_method (self w));
        [|reflexivity]. red in Hn. cbn [self]. now rewrite Hn.
    + exists (after w events), (Ret None), events. repeat split; auto.
  - exists w, (Raise (SystemExit (Some 1%Z))), [].
    split; [reflexivity|]. split; [now rewrite app_nil_r|].
    split; [reflexivity|right; eauto].
Qed.

(** [handle_request] answers nobody: when [recv] fails it closes the
    connection, and when bytes are received it raises an exception that is
    not [socket.error], with nothing sent, nothing closed and no attribute
    changed. *)
Theorem handle_request_answers_nobody (received : option (list byte))
    (origin : origin_server) (w : world) :
  match received with
  | None => handle_request received origin w = (after w [ClientClose], Ret tt)
  | Some data =>
      exists e,
        handle_request received origin w = (w, Raise e)
        /\ is_socket_error e = false
        /\ exit_status e = 1%Z
  end.
Proof.
  destruct received as [data|]; [|reflexivity].
  destruct (handle_request_stops_at_print data origin w)
    as (e & Hrun & He).
  exists e. split; [exact Hrun|].
  destruct He as [He|[He|He]]; subst e; split; reflexivity.
Qed.

(** The loop of [accept_connection]: as long as every [accept] or [recv]
    fails the loop goes on, closing the clients whose [recv] failed; the
    first client that sends bytes ends it with an exception, so that no
    later client is served and the process ends with status 1. *)
Theorem first_request_ends_the_server (quiet later : list incoming)
    (data : list byte) (origin : origin_server) (w : world) :
  forallb silent quiet = true ->
  accept_connection quiet w = (after w (closed_unanswered quiet), Ret tt)
  /\ exists e,
       accept_connection (quiet ++ Accepted (Some data) origin :: later) w
       = (after w (closed_unanswered quiet), Raise e)
       /\ exit_status e = 1%Z.
Proof.
  revert w. induction quiet as [|a quiet IH]; intros w Hq.
  - split; [cbn; now rewrite after_nil|].
    cbn [app accept_connection closed_unanswered]. unfold bind.
    unfold accept_connection_once.
    destruct (handle_request_stops_at_print data origin w)
      as (e & -> & He).
    rewrite after_nil. exists e.
    destruct He as [He|[He|He]]; subst e; split; reflexivity.
  - cbn [forallb] in Hq. apply andb_true_iff in Hq.
    destruct Hq as [Ha Hq].
    destruct a as [|[bytes|] origin']; try discriminate.
    + cbn [app accept_connection closed_unanswered]. now apply IH.
    + cbn [app accept_connection closed_unanswered]. unfold bind.
      change (accept_connection_once None origin' w)
        with (after w [ClientClose], @Ret unit tt).
      destruct (IH (after w [ClientClose]) Hq) as (H1 & e & H2 & He).
      rewrite H1, H2, after_after. split; [reflexivity|now exists e].
Qed.

End NeverDone.

Lemma send_request_to_server_never_fetches_witness :
  unassigned parsed_with_port
  /\ exists w' r events,
       send_request_to_server (lib := plain_urls) origin_up parsed_with_port
       = (w', r)
       /\ trace w' = trace parsed_with_port ++ events
       /\ forallb (fun e => negb (is_origin_send e)) events = true
       /\ (r = Ret None \/ exists e, r = Raise e).
Proof.
  split; [reflexivity|].
  exact (send_request_to_server_never_fetches (lib := plain_urls)
           origin_up parsed_with_port eq_refl).
Defined.

Lemma first_request_ends_the_server_witness :
  forallb silent [AcceptError; Accepted None origin_up] = true
  /\ exists e,
       accept_connection (lib := plain_urls)
         ([AcceptError; Accepted None origin_up]
            ++ Accepted (Some (utf8 request_line_get)) origin_up
            :: [Accepted (Some (utf8 request_line_get)) origin_up]) start
       = (after start (closed_unanswered [AcceptError; Accepted None origin_up]),
          Raise e)
       /\ exit_status e = 1%Z.
Proof.
  split; [reflexivity|].
  exact (proj2 (first_request_ends_the_server (lib := plain_urls)
                  [AcceptError; Accepted None origin_up]
                  [Accepted (Some (utf8 request_line_get)) origin_up]
                  (utf8 request_line_get) origin_up start eq_refl)).
Defined.

(** ** The paths through the handler *)

Section HandlerPaths.

Context {lib : Library}.

Ltac run :=
  unfold attr, sys_exit, set_request_method, set_request_version,
    set_request_url_parsed, set_url_parsed;
  unfold bind, expect, getitem, lift, ret, raise, emit, get_files,
    set_files, set_self, try_except;
  cbn [nth_error self files trace request_url_parsed request_method
         request_version url_parsed port_num parsed negb].

(** A request with at least three fields separated by spaces, whose
    second field is a URL with a port: the method, the URL and the version
    are stored, stripped of surrounding white space, further fields are
    ignored, and nothing else changes. *)
Theorem parse_request_stores_fields (request m u v : pystr)
    (rest : list pystr) (url : ParseResult) (n : Z) (w : world) :
  split (lit " ") request = m :: u :: v :: rest ->
  urlparse (strip u) = Ret url ->
  port url = Ret (Some n) ->
  parse_request request w
  = ({| self := {| port_num := port_num (self w);
                   request_method := Some (strip m);
                   request_url_parsed := Some url;
                   request_version := Some (strip v);
                   url_parsed := url_parsed (self w) |};
        files := files w;
        trace := trace w |},
     Ret tt).
Proof.
  intros Hs Hu Hp.
  exact (parse_request_port request m u v rest url Hs Hu n w Hp).
Qed.

(** A request with no space in it has a single field: [parse_request]
    assigns the method, then raises [IndexError] on the second field; for
    a valid request of that kind the handler ends there, before any
    event. *)
Theorem request_without_space_raises (origin : origin_server)
    (request : pystr) (w : world) :
  lacks_char 32 request = true ->
  check_request_validity request = true ->
  answer_request origin request w
  = ({| self := {| port_num := port_num (self w);
                   request_method := Some (strip request);
                   request_url_parsed := request_url_parsed (self w);
                   request_version := request_version (self w);
                   url_parsed := url_parsed (self w) |};
        files := files w;
        trace := trace w |},
     Raise IndexError).
Proof.
  intros Hl Hv. unfold answer_request. rewrite Hv. cbn [negb].
  unfold bind at 1. unfold parse_request.
  change (lit " ") with [32%N]. rewrite split_char_single by exact Hl.
  reflexivity.
Qed.

(** A valid request for a key that is not in the cache, to an origin that
    refuses the connection: the handler looks the key up, tries to
    connect, sends the fixed 500 response and closes. *)
Theorem refused_origin_gets_fixed_500 (origin : origin_server)
    (request m u v : pystr) (rest : list pystr) (url : ParseResult)
    (n : Z) (host : pystr) (w : world) :
  check_request_validity request = true ->
  split (lit " ") request = m :: u :: v :: rest ->
  urlparse (strip u) = Ret url ->
  port url = Ret (Some n) ->
  hostname url = Some host ->
  FS.is_file (files w) (lit "./cache/" ++ host ++ path url) = false ->
  socket_created origin = true ->
  accepts_connection origin = false ->
  answer_request origin request w
  = (after (parsed w m v url)
       [CacheStat (lit "./cache/" ++ host ++ path url);
        OriginConnect host n;
        ClientSend (utf8 response500_fixed);
        ClientClose],
     Ret tt).
Proof.
  intros Hv Hs Hu Hp Hh Hmiss Hsock Hacc.
  unfold answer_request. rewrite Hv. cbn [negb].
  unfold bind at 1.
  rewrite (parse_request_port request m u v rest url Hs Hu n w Hp).
  unfold bind at 1.
  rewrite (check_file_in_cache_parsed m v url host w Hh), Hmiss.
  unfold bind at 1.
  change (after (parsed w m v url)
            [CacheStat (lit "./cache/" ++ host ++ path url)])
    with (parsed (after w [CacheStat (lit "./cache/" ++ host ++ path url)])
            m v url).
  rewrite (send_request_to_server_refused m v url origin host n _
             Hh Hp Hsock Hacc).
  unfold bind, lift. cbn [create_500_response].
  rewrite (send_client_after _ _ _ encode_response500_fixed).
  rewrite emit_after, !after_after. unfold after, parsed.
  cbn [self files trace]. rewrite <- !app_assoc. reflexivity.
Qed.

(** A valid request whose key is in the cache, the entry being a whole
    response (header lines, an empty line, a body), for a host and a path
    made of names, with no ["."] and no [".."]: the handler sends it with
    the lines of the transformer and [Cache-Hit: 1], closes, and does not
    contact the origin. *)
Theorem cached_response_is_served (origin : origin_server)
    (request m u v : pystr) (rest : list pystr) (url : ParseResult)
    (n : Z) (host : pystr) (data sent : list byte)
    (headers : list pystr) (body : pystr) (w : world) :
  check_request_validity request = true ->
  split (lit " ") request = m :: u :: v :: rest ->
  urlparse (strip u) = Ret url ->
  port url = Ret (Some n) ->
  hostname url = Some host ->
  plain_path (host ++ path url) = true ->
  FS.is_file (files w) (lit "./cache/" ++ host ++ path url) = true ->
  FS.read (files w) (lit "./cache/" ++ host ++ path url) = Some data ->
  decode data = Some (render headers body) ->
  forallb header_line headers = true ->
  encode (render
            (headers ++ content_length_lines headers (split CRLF body)
               ++ connection_lines headers ++ [lit "Cache-Hit: 1"])
            (concat (split CRLF body))) = Some sent ->
  answer_request origin request w
  = (after (parsed w m v url)
       [CacheStat (lit "./cache/" ++ host ++ path url);
        CacheRead (lit "./cache/" ++ host ++ path url);
        ClientSend sent;
        ClientClose],
     Ret tt).
Proof.
  intros Hv Hs Hu Hp Hh _ Hhit Hread Hdec Hhead Henc.
  unfold answer_request. rewrite Hv. cbn [negb].
  unfold bind at 1.
  rewrite (parse_request_port request m u v rest url Hs Hu n w Hp).
  unfold bind at 1.
  rewrite (check_file_in_cache_parsed m v url host w Hh), Hhit.
  unfold bind at 1.
  unfold serve_from_cache, get_response_from_cache, cache_path, open_rb_read.
  unfold after, parsed. run. rewrite Hh. cbn [operand_of str_add].
  cbn [self files trace].
  rewrite <- (app_assoc (lit "./cache/") host (path url)), Hread.
  cbn [self files trace]. rewrite Hdec.
  rewrite (normalize_render headers body true Hhead).
  unfold send_client. run. change (cache_hit_line true) with (lit "Cache-Hit: 1").
  rewrite Henc. cbn [self files trace]. rewrite <- !app_assoc. reflexivity.
Qed.

(** The loop of lines 556-567: the pieces received are put together
    until the peer closes or sends an empty piece; what comes after is not
    read, and a failure before that loses all of it. *)
Theorem recv_all_until_close (pieces : list (list byte))
    (response : list byte) :
  forallb (fun piece => negb (length piece =? 0)) pieces = true ->
  recv_all (map Some pieces) response = Some (response ++ concat pieces)
  /\ (forall later,
        recv_all (map Some pieces ++ Some [] :: later) response
        = Some (response ++ concat pieces))
  /\ (forall later,
        recv_all (map Some pieces ++ None :: later) response = None).
Proof.
  revert response. induction pieces as [|piece pieces IH]; intros response H.
  - cbn. now rewrite app_nil_r.
  - cbn [forallb] in H. apply andb_true_iff in H. destruct H as [Hp Hps].
    destruct piece as [|b piece]; [discriminate|].
    destruct (IH (response ++ b :: piece) Hps) as (H1 & H2 & H3).
    cbn [map app recv_all concat]. repeat split.
    + rewrite H1, <- app_assoc. reflexivity.
    + intros later. rewrite H2, <- app_assoc. reflexivity.
    + exact H3.
Qed.

End HandlerPaths.

Section Outbound.

Context {lib : Library}.

Ltac run :=
  unfold attr, sys_exit, set_request_method, set_request_version,
    set_request_url_parsed, set_url_parsed;
  unfold bind, expect, getitem, lift, ret, raise, emit, get_files,
    set_files, set_self, try_except;
  cbn [nth_error self files trace request_url_parsed request_method
         request_version url_parsed port_num parsed negb].

(** [send_request_to_server] in a state where [url_parsed] is assigned
    (which no method of the class brings about): it connects to the host
    and port of [request_url_parsed], sends the method, the path of
    [url_parsed] ([/] when it is empty) and the version, with a Host and a
    Connection header, and returns the decoded bytes received until the
    origin closes. *)
Theorem send_request_to_server_fetches (origin : origin_server)
    (m v host : pystr) (url up : ParseResult) (n : Z)
    (sent bytes : list byte) (text : pystr) (w : world) :
  request_method (self w) = Some m ->
  request_version (self w) = Some v ->
  request_url_parsed (self w) = Some url ->
  url_parsed (self w) = Some up ->
  hostname url = Some host ->
  port url = Ret (Some n) ->
  socket_created origin = true ->
  accepts_connection origin = true ->
  accepts_request origin = true ->
  encode (outbound_request m (path up) v host) = Some sent ->
  recv_all (reply origin) [] = Some bytes ->
  decode bytes = Some text ->
  send_request_to_server origin w
  = (after w [OriginConnect host n; OriginSend sent], Ret (Some text)).
Proof.
  intros Hm Hv Hurl Hup Hh Hp Hsock Hacc Hreq Henc Hrecv Hdec.
  unfold send_request_to_server, create_socket. rewrite Hsock. run.
  rewrite Hurl, Hp, Hh. run. rewrite Hacc. run. rewrite Hm. cbn [self].
  rewrite Hup. unfold outbound_request in Henc.
  destruct (Str.eqb (path up) []); cbn [negb self files trace];
    rewrite ?Hup; cbn [self files trace]; rewrite Hv;
    cbn [self files trace]; rewrite Hurl; cbn [self files trace];
    rewrite Hh; cbn [operand_of str_add];
    rewrite <- !app_assoc; rewrite Henc; cbn [self files trace];
    rewrite Hreq, Hrecv, Hdec; unfold after; cbn [self files trace];
    now rewrite <- app_assoc.
Qed.

End Outbound.

Lemma send_request_to_server_fetches_witness :
  send_request_to_server (lib := plain_urls) origin_answering all_assigned
  = (after all_assigned
       [OriginConnect (lit "example.com") 8080;
        OriginSend
          (utf8 (lit "GET /a.txt HTTP/1.0" ++ CRLF
                   ++ lit "Host: example.com" ++ CRLF
                   ++ lit "Connection: close" ++ CRLF ++ CRLF))],
     Ret (Some response_200_hello)).
Proof.
  exact (send_request_to_server_fetches (lib := plain_urls) origin_answering
           (lit "GET") (lit "HTTP/1.0") (lit "example.com")
           url_with_port url_with_port 8080
           (utf8 (lit "GET /a.txt HTTP/1.0" ++ CRLF
                    ++ lit "Host: example.com" ++ CRLF
                    ++ lit "Connection: close" ++ CRLF ++ CRLF))
           (utf8 response_200_hello) response_200_hello all_assigned
           eq_refl eq_refl eq_refl eq_refl eq_refl eq_refl eq_refl eq_refl
           eq_refl eq_refl eq_refl eq_refl).
Defined.

Lemma parse_request_stores_fields_witness :
  parse_request (lib := plain_urls) request_with_port start
  = ({| self := {| port_num := Some 8080%Z;
                   request_method := Some (lit "GET");
                   request_url_parsed := Some url_with_port;
                   request_version := Some (lit "HTTP/1.0");
                   url_parsed := None |};
        files := cache_only;
        trace := [] |},
     Ret tt).
Proof.
  exact (parse_request_stores_fields (lib := plain_urls) request_with_port
           (lit "GET" ++ CRLF) (lit "http://example.com:8080/a.txt")
           (CRLF ++ lit "HTTP/1.0") [] url_with_port 8080 start
           eq_refl eq_refl eq_refl).
Defined.

Lemma request_without_space_raises_witness :
  lacks_char 32 request_one_per_line = true
  /\ check_request_validity request_one_per_line = true
  /\ snd (answer_request (lib := plain_urls) origin_up request_one_per_line
            start) = Raise IndexError.
Proof.
  split; [reflexivity|]. split; [reflexivity|].
  now rewrite (request_without_space_raises (lib := plain_urls) origin_up
                 request_one_per_line start eq_refl eq_refl).
Defined.

Lemma refused_origin_gets_fixed_500_witness :
  answer_request (lib := plain_urls) origin_down request_with_port start
  = (after (parsed start (lit "GET" ++ CRLF) (CRLF ++ lit "HTTP/1.0")
              url_with_port)
       [CacheStat (lit "./cache/" ++ lit "example.com" ++ path url_with_port);
        OriginConnect (lit "example.com") 8080;
        ClientSend (utf8 response500_fixed);
        ClientClose],
     Ret tt).
Proof.
  exact (refused_origin_gets_fixed_500 (lib := plain_urls) origin_down
           request_with_port (lit "GET" ++ CRLF)
           (lit "http://example.com:8080/a.txt") (CRLF ++ lit "HTTP/1.0") []
           url_with_port 8080 (lit "example.com") start
           eq_refl eq_refl eq_refl eq_refl eq_refl eq_refl eq_refl eq_refl).
Defined.

Lemma cached_response_is_served_witness :
  answer_request (lib := plain_urls) origin_down request_with_port
    (with_entry (utf8 (render [lit "HTTP/1.0 200 OK"] (lit "hello"))))
  = (after (parsed
              (with_entry (utf8 (render [lit "HTTP/1.0 200 OK"] (lit "hello"))))
              (lit "GET" ++ CRLF) (CRLF ++ lit "HTTP/1.0") url_with_port)
       [CacheStat (lit "./cache/" ++ lit "example.com" ++ path url_with_port);
        CacheRead (lit "./cache/" ++ lit "example.com" ++ path url_with_port);
        ClientSend
          (utf8 (render [lit "HTTP/1.0 200 OK"; lit "Content-Length: 5";
                         lit "Connection: close"; lit "Cache-Hit: 1"]
                   (lit "hello")));
        ClientClose],
     Ret tt).
Proof.
  exact (cached_response_is_served (lib := plain_urls) origin_down
           request_with_port (lit "GET" ++ CRLF)
           (lit "http://example.com:8080/a.txt") (CRLF ++ lit "HTTP/1.0") []
           url_with_port 8080 (lit "example.com")
           (utf8 (render [lit "HTTP/1.0 200 OK"] (lit "hello")))
           (utf8 (render [lit "HTTP/1.0 200 OK"; lit "Content-Length: 5";
                          lit "Connection: close"; lit "Cache-Hit: 1"]
                    (lit "hello")))
           [lit "HTTP/1.0 200 OK"] (lit "hello")
           (with_entry (utf8 (render [lit "HTTP/1.0 200 OK"] (lit "hello"))))
           eq_refl eq_refl eq_refl eq_refl eq_refl eq_refl eq_refl eq_refl
           eq_refl eq_refl eq_refl).
Defined.

Lemma recv_all_until_close_witness :
  recv_all (map Some [utf8 (lit "he"); utf8 (lit "llo")]
              ++ Some [] :: [Some (utf8 (lit "late"))]) []
  = Some (utf8 (lit "hello")).
Proof.
  exact (proj1 (proj2 (recv_all_until_close
                         [utf8 (lit "he"); utf8 (lit "llo")] [] eq_refl))
           [Some (utf8 (lit "late"))]).
Defined.

Lemma answer_invalid_request_witness :
  check_request_validity request_line_post = false
  /\ answer_request (lib := plain_urls) origin_up request_line_post start
     = (after start [ClientSend (utf8 response500_fixed); ClientClose],
        Ret tt).
Proof.
  split; [reflexivity|].
  exact (answer_invalid_request (lib := plain_urls) origin_up
           request_line_post start eq_refl).
Defined.

(** ** The listening socket *)

Section Listener.

(** [bind_socket] goes up from the port it is given: while the ports are
    taken it goes on, and it ends on the first port on which [bind] does
    not raise [socket.error], bound to it when [bind] succeeds and with
    the exception otherwise. *)
Theorem bind_socket_first_free (bind : Z -> result unit) (k fuel : nat)
    (port_num : Z) :
  (forall i, i < k -> bind (port_num + Z.of_nat i)%Z = Raise OSError) ->
  (fuel <= k -> bind_socket bind fuel port_num = None)
  /\ (k < fuel ->
      (bind (port_num + Z.of_nat k)%Z = Ret tt ->
       bind_socket bind fuel port_num
       = Some (Ret (port_num + Z.of_nat k)%Z))
      /\ (forall e,
            bind (port_num + Z.of_nat k)%Z = Raise e ->
            is_socket_error e = false ->
            bind_socket bind fuel port_num = Some (Raise e))).
Proof.
  revert fuel port_num. induction k as [|k IH]; intros fuel port_num Hbusy.
  - split; [intros Hf; replace fuel with 0 by lia; reflexivity|].
    intros Hf. destruct fuel as [|fuel]; [lia|]. cbn [bind_socket].
    rewrite Z.add_0_r. split.
    + intros ->. reflexivity.
    + intros e -> ->. reflexivity.
  - assert (Hfirst : bind port_num = Raise OSError).
    { rewrite <- (Z.add_0_r port_num). apply (Hbusy 0). lia. }
    assert (Hnext : forall i, i < k ->
                      bind (port_num + 1 + Z.of_nat i)%Z = Raise OSError).
    { intros i Hi. replace (port_num + 1 + Z.of_nat i)%Z
        with (port_num + Z.of_nat (S i))%Z by lia.
      apply Hbusy. lia. }
    destruct fuel as [|fuel]; [split; [reflexivity|lia]|].
    cbn [bind_socket]. rewrite Hfirst. cbn [is_socket_error].
    replace (port_num + Z.of_nat (S k))%Z
      with (port_num + 1 + Z.of_nat k)%Z by lia.
    destruct (IH fuel (port_num + 1)%Z Hnext) as [H1 H2].
    split; [intros Hf; apply H1; lia|intros Hf; apply H2; lia].
Qed.

Lemma bind_socket_first_free_witness :
  (forall i, i < 2 ->
     taken_below 8082 (8080 + Z.of_nat i)%Z = Raise OSError)
  /\ bind_socket (taken_below 8082) 5 8080 = Some (Ret 8082%Z).
Proof.
  assert (H : forall i, i < 2 ->
                taken_below 8082 (8080 + Z.of_nat i)%Z = Raise OSError).
  { intros i Hi. unfold taken_below.
    destruct (Z.ltb_spec (8080 + Z.of_nat i) 8082); [reflexivity|lia]. }
  split; [exact H|].
  destruct (bind_socket_first_free (taken_below 8082) 2 5 8080 H)
    as [_ Hfound].
  apply Hfound; [lia|reflexivity].
Defined.

End Listener.

(** ** The cache directory *)

Section CacheDirectory.

Context {lib : Library}.

(** [__init__] returns with [./cache] a directory and the attributes of
    the request unassigned, leaving the files as they are when the
    directory is already there; it raises an [OSError] only when [cache]
    is a file. *)
Theorem init_makes_cache_directory (port : Z) (w : world) :
  (exists w',
     init port w = (w', Ret tt)
     /\ FS.is_dir (files w') (lit "./cache") = true
     /\ self w'
        = {| port_num := Some port; request_method := None;
             request_url_parsed := None; request_version := None;
             url_parsed := None |}
     /\ (FS.is_dir (files w) (lit "./cache") = true -> files w' = files w))
  \/ (exists w',
        init port w = (w', Raise OSError)
        /\ FS.is_file (files w) (lit "./cache") = true).
Proof.
  unfold init, path_is_dir, FS.is_dir, FS.is_file.
  unfold bind, set_self, emit, get_files, set_files, ret, raise.
  cbn [self files trace].
  change (FS.resolve (lit "./cache")) with [lit "cache"].
  destruct (FS.stat (files w) [lit "cache"]) as [[|content]|] eqn:E;
    cbn [negb self files trace]; try rewrite E.
  - left. eexists. split; [reflexivity|]. cbn [files]. rewrite E. auto.
  - right. eexists. split; reflexivity.
  - left. eexists. split; [reflexivity|]. cbn [files self].
    split; [|split; [reflexivity|discriminate]].
    cbn [FS.stat FS.lookup]. unfold FS.path_eqb.
    destruct (list_eq_dec _ _ _); [reflexivity|congruence].
Qed.

End CacheDirectory.

(** ** Where the cache is written *)

Section StoreFacts.

Lemma path_eqb_eq (p q : FS.path) : FS.path_eqb p q = true <-> p = q.
Proof.
  unfold FS.path_eqb.
  destruct (list_eq_dec (list_eq_dec N.eq_dec) p q); split; congruence.
Qed.

Lemma path_eqb_neq (p q : FS.path) : FS.path_eqb p q = false <-> p <> q.
Proof.
  unfold FS.path_eqb.
  destruct (list_eq_dec (list_eq_dec N.eq_dec) p q); split; congruence.
Qed.

Lemma lookup_update_other (t : FS.fs) (p q : FS.path) (n : FS.node) :
  q <> p -> FS.lookup (FS.update t p n) q = FS.lookup t q.
Proof.
  intros H. unfold FS.update. cbn [FS.lookup].
  assert (Hpq : FS.path_eqb p q = false) by (apply path_eqb_neq; congruence).
  rewrite Hpq. induction t as [|[r m] t IH]; [reflexivity|].
  cbn [filter fst FS.lookup].
  destruct (FS.path_eqb r p) eqn:E; cbn [negb FS.lookup].
  - apply path_eqb_eq in E. subst r. rewrite Hpq. exact IH.
  - destruct (FS.path_eqb r q); [reflexivity|exact IH].
Qed.

Lemma stat_update_other (t : FS.fs) (p q : FS.path) (n : FS.node) :
  q <> p -> FS.stat (FS.update t p n) q = FS.stat t q.
Proof.
  intros H. destruct q; [reflexivity|]. now apply lookup_update_other.
Qed.

(** Making directories makes and changes no file. *)
Lemma mkdir_from_files (rest done : FS.path) (t t' : FS.fs) :
  FS.mkdir_from t done rest = Some t' ->
  forall q, file_at t' q = file_at t q.
Proof.
  revert done t. induction rest as [|c rest IH]; intros done t H q.
  - injection H as <-. reflexivity.
  - cbn [FS.mkdir_from] in H.
    destruct (FS.stat t (done ++ [c])) as [[|content]|] eqn:E;
      [now apply (IH _ _ H)|discriminate|].
    rewrite (IH _ _ H q). unfold file_at.
    destruct q as [|x q]; [reflexivity|].
    cbn [FS.stat FS.lookup].
    destruct (FS.path_eqb (done ++ [c]) (x :: q)) eqn:Eq; [|reflexivity].
    apply path_eqb_eq in Eq. rewrite Eq in E. cbn [FS.stat] in E.
    now rewrite E.
Qed.

Lemma create_other (t t' : FS.fs) (p : pystr) (q : FS.path) :
  FS.create t p = Some t' -> q <> FS.resolve p -> file_at t' q = file_at t q.
Proof.
  unfold FS.create, file_at. intros H Hq.
  destruct (FS.trailing_slash p); [discriminate|].
  destruct (FS.stat t (FS.resolve p)) as [[|content]|]; [discriminate| |].
  - injection H as <-. now rewrite stat_update_other.
  - destruct (FS.stat t (removelast (FS.resolve p))) as [[|c]|];
      try discriminate.
    injection H as <-. now rewrite stat_update_other.
Qed.

Lemma append_other (t : FS.fs) (p : pystr) (data : list byte)
    (q : FS.path) :
  q <> FS.resolve p -> file_at (FS.append t p data) q = file_at t q.
Proof.
  unfold FS.append, file_at. intros Hq.
  destruct (FS.stat t (FS.resolve p)) as [[|content]|]; try reflexivity.
  now rewrite stat_update_other.
Qed.

Lemma join_removelast (sep : pystr) (l : list pystr) :
  l <> [] ->
  concat (map (fun x => x ++ sep) (removelast l)) ++ last l [] = join sep l.
Proof.
  induction l as [|x l IH]; intros H; [congruence|].
  destruct l as [|y l]; [reflexivity|].
  change (removelast (x :: y :: l)) with (x :: removelast (y :: l)).
  change (last (x :: y :: l) []) with (last (y :: l) []).
  cbn [map concat]. rewrite join_cons by discriminate.
  rewrite <- !app_assoc. now rewrite IH by discriminate.
Qed.

(** With no [".."] on the way, resolving goes down from where it
    starts. *)
Lemma walk_from (comps : list pystr) (cur : FS.path) :
  existsb (fun c => Str.eqb c (lit "..")) comps = false ->
  FS.walk cur comps = cur ++ FS.walk [] comps.
Proof.
  revert cur. induction comps as [|c comps IH]; intros cur H.
  - cbn. now rewrite app_nil_r.
  - cbn [existsb] in H. apply orb_false_iff in H. destruct H as [Hc Hcs].
    cbn [FS.walk]. rewrite Hc.
    destruct (Str.eqb c [] || Str.eqb c (lit ".")); [now apply IH|].
    rewrite (IH (cur ++ [c]) Hcs), (IH ([] ++ [c]) Hcs).
    now rewrite <- app_assoc.
Qed.

Lemma split_slash_cache (p : pystr) :
  split (lit "/") (lit "./cache/" ++ p)
  = lit "." :: lit "cache" :: split (lit "/") p.
Proof.
  change (lit "/") with [47%N].
  change (lit "./cache/" ++ p) with (lit "." ++ 47%N :: lit "cache" ++ 47%N :: p).
  rewrite split_char_field by reflexivity.
  now rewrite split_char_field by reflexivity.
Qed.

(** The path of the entry that is written resolves one [cache] below
    the path that is looked up. *)
Lemma written_path_differs (key : pystr) :
  no_parent_step key = true ->
  FS.resolve (lit "./cache/" ++ lit "./cache/" ++ key)
  = lit "cache" :: FS.resolve (lit "./cache/" ++ key).
Proof.
  unfold no_parent_step. rewrite negb_true_iff. intros H.
  unfold FS.resolve. rewrite !split_slash_cache.
  change (FS.walk [] (lit "." :: lit "cache" :: lit "." :: lit "cache"
                        :: split (lit "/") key))
    with (FS.walk [lit "cache"; lit "cache"] (split (lit "/") key)).
  change (FS.walk [] (lit "." :: lit "cache" :: split (lit "/") key))
    with (FS.walk [lit "cache"] (split (lit "/") key)).
  rewrite (walk_from _ [lit "cache"; lit "cache"] H).
  now rewrite (walk_from _ [lit "cache"] H).
Qed.

End StoreFacts.

Section Store.

Context {lib : Library}.

Lemma make_directories_result (pieces : list pystr) (acc : pystr)
    (w : world) :
  exists w' r,
    make_directories pieces acc w = (w', r)
    /\ self w' = self w
    /\ (forall q, file_at (files w') q = file_at (files w) q)
    /\ (r = Ret (acc ++ concat (map (fun x => x ++ lit "/") pieces))
        \/ r = Raise OSError).
Proof.
  revert acc w. induction pieces as [|piece rest IH]; intros acc w.
  - exists w, (Ret acc). cbn. rewrite app_nil_r. auto.
  - cbn [make_directories]. unfold path_is_dir, path_mkdir.
    unfold bind, emit, get_files, set_files, ret, expect, raise.
    cbn [self files trace].
    destruct (FS.is_dir (files w) (acc ++ piece)); cbn [negb].
    + match goal with
      | |- context [make_directories rest ?a ?w0] =>
          destruct (IH a w0) as (w' & r & -> & Hs & Hf & Hr)
      end.
      exists w', r. repeat split; auto.
      destruct Hr as [-> | ->]; [left|now right].
      cbn [map concat]. now rewrite <- !app_assoc.
    + cbn [self files trace].
      destruct (FS.mkdir (files w) (acc ++ piece)) as [t'|] eqn:E;
        unfold ret, raise; cbn [self files trace].
      * match goal with
        | |- context [make_directories rest ?a ?w0] =>
            destruct (IH a w0) as (w' & r & -> & Hs & Hf & Hr)
        end.
        exists w', r. repeat split; auto.
        -- intros q. rewrite Hf. cbn [files].
           exact (mkdir_from_files _ _ _ _ E q).
        -- destruct Hr as [-> | ->]; [left|now right].
           cbn [map concat]. now rewrite <- !app_assoc.
      * eexists. eexists. split; [reflexivity|]. cbn [self files]. auto.
Qed.

Lemma stat_update_same (t : FS.fs) (q : FS.path) (n : FS.node) :
  q <> [] -> FS.stat (FS.update t q n) q = Some n.
Proof.
  intros H. destruct q as [|x q]; [congruence|].
  unfold FS.update. cbn [FS.stat FS.lookup].
  now rewrite (proj2 (path_eqb_eq _ _) eq_refl).
Qed.

Lemma encode_app (a b : pystr) :
  encode (a ++ b)
  = match encode a, encode b with
    | Some x, Some y => Some (x ++ y)
    | _, _ => None
    end.
Proof.
  induction a as [|c a IH]; cbn [app encode].
  - now destruct (encode b).
  - rewrite IH. destruct (encode_char c); [|reflexivity].
    destruct (encode a); [|reflexivity].
    destruct (encode b); [|reflexivity]. now rewrite app_assoc.
Qed.

(** The loop of lines 627-628 changes the file it writes and no other
    one; when it ends, the file has grown by the encoding of the lines put
    together. *)
Lemma write_lines_result (p : pystr) (lines : list pystr) (w : world) :
  exists w' r,
    write_lines p lines w = (w', r)
    /\ self w' = self w /\ trace w' = trace w
    /\ (forall q, q <> FS.resolve p ->
                  file_at (files w') q = file_at (files w) q)
    /\ (r = Ret tt ->
        forall content,
          FS.resolve p <> [] ->
          file_at (files w) (FS.resolve p) = Some content ->
          exists data,
            encode (concat lines) = Some data
            /\ file_at (files w') (FS.resolve p) = Some (content ++ data)).
Proof.
  revert w. induction lines as [|line rest IH]; intros w.
  - exists w, (Ret tt). repeat split; auto.
    intros _ content _ H. exists []. now rewrite app_nil_r.
  - cbn [write_lines]. unfold file_write.
    unfold bind, expect, get_files, set_files, ret, raise.
    destruct (encode line) as [data|] eqn:E; unfold ret, raise;
      cbn [self files trace].
    + match goal with
      | |- context [write_lines p rest ?w0] =>
          destruct (IH w0) as (w' & r & -> & Hs & Ht & Hf & Hr)
      end.
      exists w', r. repeat split; auto.
      * intros q Hq. rewrite (Hf q Hq). cbn [files].
        now apply append_other.
      * intros Hret content Hne Hc.
        assert (Hgrown : file_at (FS.append (files w) p data) (FS.resolve p)
                         = Some (content ++ data)).
        { unfold file_at in Hc |- *. unfold FS.append.
          destruct (FS.stat (files w) (FS.resolve p)) as [[|c0]|];
            try discriminate.
          injection Hc as ->. now rewrite stat_update_same. }
        destruct (Hr Hret (content ++ data) Hne Hgrown) as (more & Hm & Hfile).
        exists (data ++ more). cbn [concat]. rewrite encode_app, E, Hm.
        split; [reflexivity|]. now rewrite app_assoc.
    + exists w, (Raise UnicodeEncodeError). repeat split; auto.
      discriminate.
Qed.

End Store.

Section StoreEntry.

Context {lib : Library}.

Lemma create_result (t t' : FS.fs) (p : pystr) :
  FS.create t p = Some t' ->
  FS.trailing_slash p = false
  /\ FS.resolve p <> []
  /\ file_at t' (FS.resolve p) = Some [].
Proof.
  unfold FS.create. destruct (FS.trailing_slash p); [discriminate|].
  intros H. split; [reflexivity|].
  assert (Hne : FS.resolve p <> []).
  { intros E. rewrite E in H. discriminate. }
  split; [exact Hne|]. unfold file_at.
  destruct (FS.stat t (FS.resolve p)) as [[|content]|]; [discriminate| |].
  - injection H as <-. now rewrite stat_update_same.
  - destruct (FS.stat t (removelast (FS.resolve p))) as [[|c]|];
      try discriminate.
    injection H as <-. now rewrite stat_update_same.
Qed.

Lemma read_file_at (t : FS.fs) (p : pystr) :
  FS.trailing_slash p = false -> FS.read t p = file_at t (FS.resolve p).
Proof.
  intros H. unfold FS.read, file_at. rewrite H.
  destruct (FS.stat t (FS.resolve p)) as [[|c]|]; reflexivity.
Qed.

(** What [store_response_in_cache] does to the files. *)
Lemma store_files (response : pystr) (url : ParseResult) (host : pystr)
    (w : world) :
  request_url_parsed (self w) = Some url ->
  hostname url = Some host ->
  exists w' r,
    store_response_in_cache response w = (w', r)
    /\ (forall q,
          q <> FS.resolve (lit "./cache/" ++ lit "./cache/" ++ host
                             ++ path url) ->
          file_at (files w') q = file_at (files w) q)
    /\ (r = Ret tt ->
        exists k data,
          index [] (split CRLF response) = Some k
          /\ encode (concat (body_lines response k)) = Some data
          /\ FS.read (files w')
               (lit "./cache/" ++ lit "./cache/" ++ host ++ path url)
             = Some data).
Proof.
  intros Hurl Hhost.
  set (key := lit "./cache/" ++ host ++ path url).
  assert (Hkey : cache_path w = (w, Ret key)).
  { unfold cache_path, bind, attr, expect, lift, ret. rewrite Hurl, Hhost.
    cbn [operand_of str_add]. now rewrite <- app_assoc. }
  unfold store_response_in_cache. unfold bind at 1. rewrite Hkey.
  cbv zeta.
  destruct (make_directories_result
              (removelast (split (lit "/") key)) (lit "./cache/") w)
    as (w1 & r1 & Hrun & Hself & Hfiles & Hr1).
  unfold bind at 1. rewrite Hrun.
  destruct Hr1 as [-> | ->];
    [|exists w1, (Raise OSError); split; [reflexivity|];
      split; [intros q _; apply Hfiles|discriminate]].
  assert (Hpath : (lit "./cache/"
                     ++ concat (map (fun x => x ++ lit "/")
                                  (removelast (split (lit "/") key))))
                    ++ last (split (lit "/") key) []
                  = lit "./cache/" ++ key).
  { rewrite <- app_assoc. f_equal. change (lit "/") with [47%N].
    rewrite join_removelast by apply split_char_not_nil.
    apply join_split_char. }
  rewrite Hpath. unfold bind at 1. unfold expect.
  destruct (index [] (split CRLF response)) as [k|] eqn:Hk;
    [|exists w1, (Raise ValueError); split; [reflexivity|];
      split; [intros q _; apply Hfiles|discriminate]].
  unfold try_except, open_wb, bind, emit, get_files, set_files, expect.
  unfold ret, raise. cbn [self files trace].
  destruct (FS.create (files w1) (lit "./cache/" ++ key)) as [t'|] eqn:Hc;
    cbn [self files trace].
  - destruct (create_result _ _ _ Hc) as (Hslash & Hne & Hempty).
    match goal with
    | |- context [write_lines ?p ?lines ?w0] =>
        destruct (write_lines_result p lines w0)
          as (w2 & r2 & -> & _ & _ & Hother & Hdone)
    end.
    cbn [files] in Hother, Hdone.
    assert (Hkeep : forall q,
               q <> FS.resolve (lit "./cache/" ++ key) ->
               file_at (files w2) q = file_at (files w) q).
    { intros q Hq. rewrite (Hother q Hq), <- Hfiles.
      now apply create_other with (p := lit "./cache/" ++ key). }
    destruct r2 as [[]|e].
    + exists w2, (Ret tt). split; [reflexivity|]. split; [exact Hkeep|].
      intros _. destruct (Hdone eq_refl [] Hne Hempty) as (data & Hd & Hf).
      exists k, data. split; [reflexivity|]. split; [exact Hd|].
      now rewrite read_file_at.
    + unfold sys_exit, raise. exists w2, (Raise (SystemExit None)).
      split; [reflexivity|]. split; [exact Hkeep|discriminate].
  - unfold sys_exit, raise. cbn [self files trace].
    eexists. exists (Raise (SystemExit None)).
    split; [reflexivity|]. cbn [files].
    split; [intros q _; apply Hfiles|discriminate].
Qed.

(** [store_response_in_cache] changes at most one file, the one at
    [./cache/./cache/] followed by the host and the path; when it
    returns, that file holds the encoding of the body lines of the
    response put together. *)
Theorem store_writes_one_file (response : pystr) (url : ParseResult)
    (host : pystr) (w : world) :
  request_url_parsed (self w) = Some url ->
  hostname url = Some host ->
  (forall q,
     q <> FS.resolve (lit "./cache/" ++ lit "./cache/" ++ host ++ path url) ->
     file_at (files (fst (store_response_in_cache response w))) q
     = file_at (files w) q)
  /\ (snd (store_response_in_cache response w) = Ret tt ->
      exists k data,
        index [] (split CRLF response) = Some k
        /\ encode (concat (body_lines response k)) = Some data
        /\ FS.read (files (fst (store_response_in_cache response w)))
             (lit "./cache/" ++ lit "./cache/" ++ host ++ path url)
           = Some data).
Proof.
  intros Hurl Hhost.
  destruct (store_files response url host w Hurl Hhost)
    as (w' & r & -> & Hother & Hdone).
  split; [exact Hother|exact Hdone].
Qed.

(** Storing a response does not put it where it is looked up: for a host
    and a path with no [".."], whether the key is in the cache and what is
    read for it are the same after [store_response_in_cache] as before. *)
Theorem store_never_makes_a_hit (response : pystr) (url : ParseResult)
    (host : pystr) (w : world) :
  request_url_parsed (self w) = Some url ->
  hostname url = Some host ->
  no_parent_step (host ++ path url) = true ->
  FS.is_file (files (fst (store_response_in_cache response w)))
    (lit "./cache/" ++ host ++ path url)
  = FS.is_file (files w) (lit "./cache/" ++ host ++ path url)
  /\ FS.read (files (fst (store_response_in_cache response w)))
       (lit "./cache/" ++ host ++ path url)
     = FS.read (files w) (lit "./cache/" ++ host ++ path url).
Proof.
  intros Hurl Hhost Hno.
  destruct (store_files response url host w Hurl Hhost)
    as (w' & r & -> & Hother & _). cbn [fst].
  assert (Hq : file_at (files w')
                 (FS.resolve (lit "./cache/" ++ host ++ path url))
               = file_at (files w)
                   (FS.resolve (lit "./cache/" ++ host ++ path url))).
  { apply Hother. rewrite (written_path_differs _ Hno).
    intros E. apply (f_equal (@length pystr)) in E. cbn [length] in E. lia. }
  unfold FS.is_file, FS.read. unfold file_at in Hq.
  destruct (FS.trailing_slash (lit "./cache/" ++ host ++ path url));
    destruct (FS.stat (files w')
                (FS.resolve (lit "./cache/" ++ host ++ path url)))
      as [[|c1]|];
    destruct (FS.stat (files w)
                (FS.resolve (lit "./cache/" ++ host ++ path url)))
      as [[|c2]|];
    try discriminate; try (split; reflexivity);
    injection Hq as ->; split; reflexivity.
Qed.

End StoreEntry.

Lemma store_writes_one_file_witness :
  snd (store_response_in_cache (lib := plain_urls) response_200_two_lines
         parsed_with_port) = Ret tt
  /\ FS.read
       (files (fst (store_response_in_cache (lib := plain_urls)
                      response_200_two_lines parsed_with_port)))
       (lit "./cache/" ++ lit "./cache/" ++ lit "example.com"
          ++ path url_with_port)
     = Some (utf8 (lit "hello")).
Proof.
  split; [reflexivity|].
  destruct (proj2 (store_writes_one_file (lib := plain_urls)
                     response_200_two_lines url_with_port (lit "example.com")
                     parsed_with_port eq_refl eq_refl) eq_refl)
    as (k & data & Hk & Hdata & Hread).
  rewrite Hread. injection Hk as <-. rewrite <- Hdata. reflexivity.
Defined.

Lemma store_never_makes_a_hit_witness :
  no_parent_step (lit "example.com" ++ path url_with_port) = true
  /\ FS.is_file
       (files (fst (store_response_in_cache (lib := plain_urls)
                      response_200_hello parsed_with_port)))
       (lit "./cache/" ++ lit "example.com" ++ path url_with_port)
     = FS.is_file (files parsed_with_port)
         (lit "./cache/" ++ lit "example.com" ++ path url_with_port).
Proof.
  split; [reflexivity|].
  exact (proj1 (store_never_makes_a_hit (lib := plain_urls)
                  response_200_hello url_with_port (lit "example.com")
                  parsed_with_port eq_refl eq_refl eq_refl)).
Defined.

(** ** Reading back what was encoded *)

Section Utf8.

Ltac arith := zify; Z.to_euclidean_division_equations; lia.

Local Opaque N.add N.sub N.mul N.div N.modulo.

Lemma to_N_byte_of (n : N) : (n < 256)%N -> Byte.to_N (byte_of n) = n.
Proof.
  intros H. unfold byte_of.
  pose proof (Byte.to_of_N_option_map n) as Hm.
  destruct (N.leb_spec n 255); [|lia].
  destruct (Byte.of_N n); [now injection Hm|discriminate].
Qed.

Lemma ltb_false (a b : N) : (b <= a)%N -> (a <? b)%N = false.
Proof. intros H. now apply N.ltb_ge. Qed.

Lemma ltb_true (a b : N) : (a < b)%N -> (a <? b)%N = true.
Proof. intros H. now apply N.ltb_lt. Qed.

Lemma leb_true (a b : N) : (a <= b)%N -> (a <=? b)%N = true.
Proof. intros H. now apply N.leb_le. Qed.

Lemma leb_false (a b : N) : (b < a)%N -> (a <=? b)%N = false.
Proof. intros H. now apply N.leb_gt. Qed.

Lemma is_cont_low6 (x : N) : is_cont (128 + x mod 64) = true.
Proof.
  unfold is_cont. rewrite !leb_true by arith. reflexivity.
Qed.

(** The bytes of one character are read back as that character. *)
Lemma decode_encode_char (c : N) (b bs : list byte) :
  encode_char c = Some b ->
  decode (b ++ bs) = option_map (cons c) (decode bs).
Proof.
  unfold encode_char.
  destruct (N.ltb_spec c 128) as [H1|H1].
  { intros [= <-]. cbn [app decode].
    rewrite to_N_byte_of by lia. now rewrite ltb_true. }
  destruct (N.ltb_spec c 2048) as [H2|H2].
  { intros [= <-]. cbn [app decode].
    rewrite !to_N_byte_of by arith.
    rewrite ltb_false by arith. rewrite is_cont_low6. cbn [negb].
    rewrite !leb_true by arith. cbn [andb].
    replace ((192 + c / 64 - 192) * 64 + (128 + c mod 64 - 128))%N with c
      by arith.
    reflexivity. }
  destruct ((55296 <=? c) && (c <=? 57343))%N eqn:Hs; [discriminate|].
  destruct (N.ltb_spec c 65536) as [H3|H3].
  { intros [= <-]. cbn [app decode].
    rewrite !to_N_byte_of by arith.
    rewrite ltb_false by arith. rewrite !is_cont_low6. cbn [negb].
    replace ((194 <=? 224 + c / 4096) && (224 + c / 4096 <=? 223))%N
      with false
      by (rewrite (leb_false (224 + c / 4096) 223) by arith;
          now rewrite andb_false_r).
    rewrite !leb_true by arith. cbn [andb].
    replace ((224 + c / 4096 - 224) * 4096
             + (128 + (c / 64) mod 64 - 128) * 64
             + (128 + c mod 64 - 128))%N with c by arith.
    rewrite ltb_false by lia. unfold is_surrogate. rewrite Hs.
    reflexivity. }
  destruct (N.ltb_spec c 1114112) as [H4|H4]; [|discriminate].
  intros [= <-]. cbn [app decode].
  rewrite !to_N_byte_of by arith.
  rewrite ltb_false by arith. rewrite !is_cont_low6. cbn [negb].
  replace ((194 <=? 240 + c / 262144) && (240 + c / 262144 <=? 223))%N
    with false
    by (rewrite (leb_false (240 + c / 262144) 223) by arith;
        now rewrite andb_false_r).
  replace ((224 <=? 240 + c / 262144) && (240 + c / 262144 <=? 239))%N
    with false
    by (rewrite (leb_false (240 + c / 262144) 239) by arith;
        now rewrite andb_false_r).
  rewrite !leb_true by arith. cbn [andb].
  replace ((240 + c / 262144 - 240) * 262144
           + (128 + (c / 4096) mod 64 - 128) * 4096
           + (128 + (c / 64) mod 64 - 128) * 64
           + (128 + c mod 64 - 128))%N with c by arith.
  rewrite ltb_false by lia. rewrite (leb_false 1114112 c) by lia.
  reflexivity.
Qed.

Lemma decode_encode (s : pystr) (data : list byte) :
  encode s = Some data -> decode data = Some s.
Proof.
  revert data. induction s as [|c s IH]; intros data H.
  - injection H as <-. reflexivity.
  - cbn [encode] in H.
    destruct (encode_char c) as [b|] eqn:Ec; [|discriminate].
    destruct (encode s) as [bs|]; [|discriminate].
    injection H as <-. rewrite (decode_encode_char c b bs Ec).
    now rewrite (IH bs eq_refl).
Qed.

Local Transparent N.add N.sub N.mul N.div N.modulo.

End Utf8.

Section ReadBack.

Context {lib : Library}.

(** For a host and a path made of names, with no ["."] and no [".."],
    [get_response_from_cache] opens the file at [./cache/] followed by the
    host and the path, reads it once and returns the text whose encoding
    the entry holds: what was written with [encode] is read back with
    [decode] as it was. *)
Theorem cache_entry_is_read_back (url : ParseResult) (host text : pystr)
    (data : list byte) (w : world) :
  request_url_parsed (self w) = Some url ->
  hostname url = Some host ->
  plain_path (host ++ path url) = true ->
  encode text = Some data ->
  FS.read (files w) (lit "./cache/" ++ host ++ path url) = Some data ->
  get_response_from_cache w
  = (after w [CacheRead (lit "./cache/" ++ host ++ path url)], Ret text).
Proof.
  intros Hurl Hhost _ Henc Hread.
  unfold get_response_from_cache, cache_path, open_rb_read, attr.
  unfold bind, try_except, expect, lift, ret, emit, get_files.
  rewrite Hurl, Hhost. cbn [operand_of str_add files after].
  rewrite <- app_assoc, Hread. now rewrite (decode_encode text data Henc).
Qed.

End ReadBack.

Lemma cache_entry_is_read_back_witness :
  get_response_from_cache (lib := plain_urls)
    (with_entry (utf8 [104%N; 233%N; 8364%N; 128512%N]))
  = (after (with_entry (utf8 [104%N; 233%N; 8364%N; 128512%N]))
       [CacheRead (lit "./cache/" ++ lit "example.com" ++ path url_with_port)],
     Ret [104%N; 233%N; 8364%N; 128512%N]).
Proof.
  exact (cache_entry_is_read_back (lib := plain_urls) url_with_port
           (lit "example.com") [104%N; 233%N; 8364%N; 128512%N]
           (utf8 [104%N; 233%N; 8364%N; 128512%N])
           (with_entry (utf8 [104%N; 233%N; 8364%N; 128512%N]))
           eq_refl eq_refl eq_refl eq_refl eq_refl).
Defined.

(** ** More paths through the handler *)

Section MorePaths.

Context {lib : Library}.

(** A valid request whose URL has a port and no host: the path of the
    cache entry cannot be formed, [None] being added to a string, and the
    handler raises [TypeError] once the request is parsed, before any
    event. *)
Theorem request_without_host_raises (origin : origin_server)
    (request m u v : pystr) (rest : list pystr) (url : ParseResult)
    (n : Z) (w : world) :
  check_request_validity request = true ->
  split (lit " ") request = m :: u :: v :: rest ->
  urlparse (strip u) = Ret url ->
  port url = Ret (Some n) ->
  hostname url = None ->
  answer_request origin request w = (parsed w m v url, Raise TypeError).
Proof.
  intros Hv Hs Hu Hp Hh. unfold answer_request. rewrite Hv. cbn [negb].
  unfold bind at 1.
  rewrite (parse_request_port request m u v rest url Hs Hu n w Hp).
  unfold bind at 1. unfold check_file_in_cache, cache_path.
  unfold bind, attr, expect, lift, ret. cbn [parsed self request_url_parsed].
  rewrite Hh. reflexivity.
Qed.

(** What the origin answered is sent back as a 500 whatever its status:
    for a response given as a status line with a space in it, header
    lines and a body, the client is sent the status line of the 500, the
    header lines, the lines of the transformer with [Cache-Hit: 0] and the
    body; nothing is stored. *)
Theorem origin_response_becomes_500 (status : pystr)
    (headers : list pystr) (body : pystr) (sent : list byte) (w : world) :
  contains CRLF status = false ->
  lacks_char 32 status = false ->
  forallb header_line headers = true ->
  encode (render
            ((status_500 :: headers)
               ++ content_length_lines (status_500 :: headers)
                    (split CRLF (concat (split CRLF body)))
               ++ connection_lines (status_500 :: headers)
               ++ [lit "Cache-Hit: 0"])
            (concat (split CRLF (concat (split CRLF body))))) = Some sent ->
  forward_response (render (status :: headers) body) w
  = (after w [ClientSend sent], Ret tt).
Proof.
  intros Hs Hsp Hh Henc. rewrite forward_response_always_500.
  assert (Hcode : exists code,
             get_status_code (render (status :: headers) body) = Ret code).
  { unfold get_status_code, render. cbn [map concat].
    rewrite <- !app_assoc. rewrite split_crlf_line by exact Hs.
    cbn [getitem nth_error]. change (lit " ") with [32%N].
    destruct (first_separator 32 _ Hsp) as (a & b & -> & Ha).
    rewrite split_char_field by exact Ha.
    pose proof (split_char_not_nil 32 b) as Hb.
    destruct (split [32%N] b) as [|code more]; [congruence|].
    now exists code. }
  destruct Hcode as (code & Hcode). unfold bind at 1. unfold lift at 1.
  rewrite Hcode. unfold bind at 1. unfold lift.
  rewrite (create_500_response_render status headers body Hs Hh).
  now apply send_client_after.
Qed.

End MorePaths.

Lemma request_without_host_raises_witness :
  check_request_validity request_without_host = true
  /\ hostname (Library := plain_urls) url_without_host = None
  /\ answer_request (lib := plain_urls) origin_up request_without_host start
     = (parsed start (lit "GET" ++ CRLF) (CRLF ++ lit "HTTP/1.0")
          url_without_host,
        Raise TypeError).
Proof.
  split; [reflexivity|]. split; [reflexivity|].
  exact (request_without_host_raises (lib := plain_urls) origin_up
           request_without_host (lit "GET" ++ CRLF) (lit "http://:8080/a.txt")
           (CRLF ++ lit "HTTP/1.0") [] url_without_host 8080 start
           eq_refl eq_refl eq_refl eq_refl eq_refl).
Defined.

Lemma origin_response_becomes_500_witness :
  forward_response (lib := plain_urls)
    (render [lit "HTTP/1.0 503 Service Unavailable"; lit "Retry-After: 120"]
       (lit "busy"))
    parsed_with_port
  = (after parsed_with_port
       [ClientSend
          (utf8 (render [status_500; lit "Retry-After: 120";
                         lit "Content-Length: 4"; lit "Connection: close";
                         lit "Cache-Hit: 0"]
                   (lit "busy")))],
     Ret tt).
Proof.
  exact (origin_response_becomes_500 (lib := plain_urls)
           (lit "HTTP/1.0 503 Service Unavailable") [lit "Retry-After: 120"]
           (lit "busy")
           (utf8 (render [status_500; lit "Retry-After: 120";
                          lit "Content-Length: 4"; lit "Connection: close";
                          lit "Cache-Hit: 0"]
                    (lit "busy")))
           parsed_with_port eq_refl eq_refl eq_refl eq_refl).
Defined.

(** ** The statements above at concrete inputs *)

Lemma create_500_response_needs_blank_line_witness :
  ~ In [] (tl (split CRLF (CRLF ++ lit "hello")))
  /\ create_500_response (Some (CRLF ++ lit "hello")) = Raise ValueError.
Proof.
  assert (H : ~ In [] (tl (split CRLF (CRLF ++ lit "hello")))).
  { cbn. intros [H|[]]. discriminate. }
  split; [exact H|].
  exact (proj2 (create_500_response_needs_blank_line (CRLF ++ lit "hello")) H).
Defined.

Lemma get_status_code_needs_space_witness :
  lacks_char 32 (hd [] (split CRLF (lit "HTTP/1.0" ++ CRLF ++ CRLF))) = true
  /\ get_status_code (lit "HTTP/1.0" ++ CRLF ++ CRLF) = Raise IndexError.
Proof.
  split; [reflexivity|].
  exact (proj1 (get_status_code_needs_space (lit "HTTP/1.0" ++ CRLF ++ CRLF))
           eq_refl).
Defined.

Lemma url_parsed_never_assigned_witness :
  unassigned start
  /\ unassigned
       (fst (handle_request (lib := plain_urls) (Some (utf8 request_line_get))
               origin_up start)).
Proof.
  split; [reflexivity|].
  exact (proj1 (proj2 (url_parsed_never_assigned (lib := plain_urls)
                         (Some (utf8 request_line_get)) origin_up))
           start eq_refl).
Defined.
